(** * Booking scraper: a shallow embedding of [PartA/booking_scraper.py]

    The development follows the source file top to bottom: the date
    partitioner [get_dates], the page helpers, the incremental loader
    [load_hotel_cards], the record extractor [extract_hotel_data], the
    retry wrapper, the CSV sink and the pool dispatcher.

    Modelling conventions.
    - A [datetime.date] is its proleptic Gregorian ordinal (what
      [date.toordinal()] returns), an integer between 1 and 3652059;
      adding a [timedelta] outside that range raises [OverflowError].
    - Python [str] values are Rocq strings whose characters are code
      points below 256.
    - A Python [dict] is an association list in insertion order.
    - A Python [float] obtained from [float(text)] is kept as the
      decimal fraction that [text] denotes.
    - Browser automation is an external capability: it is a [driver]
      over an arbitrary world type, whose calls either answer or raise.
    - Loops that the source bounds only by the behaviour of the outside
      world run on fuel; running out of fuel is the outcome [Spin].
    - [print] calls are diagnostics and are left out, except the final
      total of the dispatcher. *)

From Stdlib Require Import ZArith QArith Lia List String Ascii Bool.
From Stdlib Require Import DecimalString.
From stdpp Require Import base option list gmap strings.
Import ListNotations.

Local Open Scope string_scope.
Local Open Scope Z_scope.

(** ** Exceptions and outcomes *)

(** [PwTimeout] is [playwright.sync_api.TimeoutError], a subclass of
    [playwright.sync_api.Error] ([PwError]); [PyExc] is any other
    Python exception, by class name. *)
Inductive exn : Type :=
  | PwTimeout (msg : string)
  | PwError (msg : string)
  | PyExc (cls msg : string).

Definition OverflowError : exn := PyExc "OverflowError" "date value out of range".
Definition ValueError : exn := PyExc "ValueError" EmptyString.
Definition TypeError : exn := PyExc "TypeError" EmptyString.
Definition IndexError : exn := PyExc "IndexError" "list index out of range".

Definition exn_str (e : exn) : string :=
  match e with PwTimeout m | PwError m | PyExc _ m => m end.

Definition is_TimeoutError (e : exn) : bool :=
  match e with PwTimeout _ => true | _ => false end.

Definition is_PlaywrightError (e : exn) : bool :=
  match e with PwTimeout _ | PwError _ => true | PyExc _ _ => false end.

Inductive outcome (A : Type) : Type :=
  | Ok (a : A)
  | Raise (e : exn)
  | Spin.
Arguments Ok {A} a.
Arguments Raise {A} e.
Arguments Spin {A}.

Definition obind {A B} (x : outcome A) (k : A -> outcome B) : outcome B :=
  match x with
  | Ok a => k a
  | Raise e => Raise e
  | Spin => Spin
  end.

(** ** Dates *)

Module Date.

Definition MINORDINAL : Z := 1.
Definition MAXORDINAL : Z := 3652059.
Definition MAX_DELTA_DAYS : Z := 999999999.

Definition valid (d : Z) : Prop := MINORDINAL <= d <= MAXORDINAL.

(** [d + timedelta(days=n)] *)
Definition add_days (d n : Z) : outcome Z :=
  if (Z.abs n <=? MAX_DELTA_DAYS) && (MINORDINAL <=? d + n) && (d + n <=? MAXORDINAL)
  then Ok (d + n)
  else Raise OverflowError.

(** [_ord2ymd] of CPython's [datetime]: ordinal to (year, month, day). *)
Definition DAYS_IN_MONTH : list Z := [31; 28; 31; 30; 31; 30; 31; 31; 30; 31; 30; 31].
Definition DAYS_BEFORE_MONTH : list Z := [0; 31; 59; 90; 120; 151; 181; 212; 243; 273; 304; 334].

Definition ord2ymd (n : Z) : Z * Z * Z :=
  let n := n - 1 in
  let n400 := n / 146097 in let n := n mod 146097 in
  let year := n400 * 400 + 1 in
  let n100 := n / 36524 in let n := n mod 36524 in
  let n4 := n / 1461 in let n := n mod 1461 in
  let n1 := n / 365 in let n := n mod 365 in
  let year := year + n100 * 100 + n4 * 4 + n1 in
  if (n1 =? 4) || (n100 =? 4) then (year - 1, 12, 31)
  else
    let leapyear := (n1 =? 3) && (negb (n4 =? 24) || (n100 =? 3)) in
    let month := Z.shiftr (n + 50) 5 in
    let preceding := nth (Z.to_nat (month - 1)) DAYS_BEFORE_MONTH 0
                     + (if (2 <? month) && leapyear then 1 else 0) in
    if n <? preceding then
      let month := month - 1 in
      let preceding := preceding
                       - (nth (Z.to_nat (month - 1)) DAYS_IN_MONTH 0
                          + (if (month =? 2) && leapyear then 1 else 0)) in
      (year, month, n - preceding + 1)
    else (year, month, n - preceding + 1).

Definition month_name (m : Z) : string :=
  nth (Z.to_nat (m - 1))
    ["January"; "February"; "March"; "April"; "May"; "June"; "July";
     "August"; "September"; "October"; "November"; "December"] EmptyString.

Definition decimal (z : Z) : string := NilZero.string_of_int (Z.to_int z).

Definition two_digits (z : Z) : string :=
  if z <? 10 then "0" ++ decimal z else decimal z.

(** [d.strftime("%-d %B %Y")] *)
Definition strftime_d_B_Y (d : Z) : string :=
  let '(y, m, dd) := ord2ymd d in
  decimal dd ++ " " ++ month_name m ++ " " ++ decimal y.

(** [d.strftime("%Y%m%d")] *)
Definition strftime_Ymd (d : Z) : string :=
  let '(y, m, dd) := ord2ymd d in
  decimal y ++ two_digits m ++ two_digits dd.

End Date.

(** [range(lo, hi)] *)
Definition py_range (lo hi : Z) : list Z :=
  map (fun k => lo + Z.of_nat k) (seq 0 (Z.to_nat (hi - lo))).

(** ** Task partitioner: [get_dates] *)

Abbreviation task := (Z * Z)%type.

(** The body of [for j in range(1, los+1)], appending to [date_tuples]. *)
Fixpoint get_dates_stays (current_date : Z) (js : list Z) (date_tuples : list task)
  : outcome (list task) :=
  match js with
  | [] => Ok date_tuples
  | j :: js' =>
      obind (Date.add_days current_date j) (fun check_out =>
      get_dates_stays current_date js' (date_tuples ++ [(current_date, check_out)]))
  end.

(** [while current_date <= end_date: ...] *)
Fixpoint get_dates_loop (fuel : nat) (current_date end_date los : Z)
    (date_tuples : list task) : outcome (list task) :=
  match fuel with
  | O => Spin
  | S fuel' =>
      if current_date <=? end_date then
        obind (get_dates_stays current_date (py_range 1 (los + 1)) date_tuples)
          (fun date_tuples' =>
        obind (Date.add_days current_date 1) (fun next_date =>
        get_dates_loop fuel' next_date end_date los date_tuples'))
      else Ok date_tuples
  end.

(** [today] is what [datetime.today().date()] answers. The loop visits
    at most [end_date - start_date + 1] days, so that much fuel (and
    one unit for the final test) is always enough. *)
Definition get_dates (today : Z) (start_date end_date : option Z) (los : Z)
  : outcome (list task) :=
  let start_date := match start_date with Some d => d | None => today end in
  obind (match end_date with
         | Some d => Ok d
         | None => Date.add_days start_date 30
         end) (fun end_date =>
  get_dates_loop (S (Z.to_nat (end_date - start_date + 1))) start_date end_date los []).

(** Order of the partitioner's output: check-in day first, then the
    length of the stay. *)
Definition task_lt (a b : task) : Prop :=
  a.1 < b.1 \/ (a.1 = b.1 /\ a.2 - a.1 < b.2 - b.1).

Definition ascending (l : list task) : Prop :=
  forall (i j : nat) (a b : task),
    (i < j)%nat -> l !! i = Some a -> l !! j = Some b -> task_lt a b.


(** The partitioner as section 4.1 of the specification words it: for
    each day from the start on, one task per stay length [1 .. los]. *)
Definition stays_of (los d : Z) : list task :=
  map (fun j => (d, d + j)) (py_range 1 (los + 1)).

Fixpoint generateTasks_spec (d : Z) (days : nat) (los : Z) : list task :=
  match days with
  | O => []
  | S days' => stays_of los d ++ generateTasks_spec (d + 1) days' los
  end.

(** ** Text: [str] methods and the regular expressions of the extractor *)

Module Text.

Definition code (c : ascii) : N := N_of_ascii c.

(** [\d] on code points below 256 *)
Definition is_digit (c : ascii) : bool :=
  ((48 <=? code c) && (code c <=? 57))%N.

(** [\s], also the separator set of [str.strip] and [str.split] *)
Definition is_space (c : ascii) : bool :=
  (((9 <=? code c) && (code c <=? 13)) || ((28 <=? code c) && (code c <=? 32))
   || (code c =? 133) || (code c =? 160))%N.

Definition lower_char (c : ascii) : ascii :=
  let n := code c in
  if (((65 <=? n) && (n <=? 90))
      || ((192 <=? n) && (n <=? 222) && negb (n =? 215)))%N
  then ascii_of_N (n + 32) else c.

Fixpoint lower (s : string) : string :=
  match s with
  | EmptyString => EmptyString
  | String c s' => String (lower_char c) (lower s')
  end.

Fixpoint drop_while (p : ascii -> bool) (s : string) : string :=
  match s with
  | EmptyString => EmptyString
  | String c s' => if p c then drop_while p s' else s
  end.

Fixpoint take_while (p : ascii -> bool) (s : string) : string :=
  match s with
  | EmptyString => EmptyString
  | String c s' => if p c then String c (take_while p s') else EmptyString
  end.

Fixpoint filter (p : ascii -> bool) (s : string) : string :=
  match s with
  | EmptyString => EmptyString
  | String c s' => if p c then String c (filter p s') else filter p s'
  end.

Fixpoint rev_onto (s acc : string) : string :=
  match s with
  | EmptyString => acc
  | String c s' => rev_onto s' (String c acc)
  end.

Definition rev (s : string) : string := rev_onto s EmptyString.

(** [s.strip()] *)
Definition strip (s : string) : string :=
  rev (drop_while is_space (rev (drop_while is_space s))).

(** [s.split()[0]]; [None] stands for the [IndexError] of an empty list *)
Definition first_token (s : string) : option string :=
  match take_while (fun c => negb (is_space c)) (drop_while is_space s) with
  | EmptyString => None
  | t => Some t
  end.

Fixpoint starts_with (p s : string) : option string :=
  match p, s with
  | EmptyString, _ => Some s
  | String a p', String b s' => if Ascii.eqb a b then starts_with p' s' else None
  | String _ _, EmptyString => None
  end.

(** [needle in s] *)
Fixpoint contains (needle s : string) : bool :=
  match starts_with needle s with
  | Some _ => true
  | None => match s with
            | EmptyString => false
            | String _ s' => contains needle s'
            end
  end.

(** Value of a string of decimal digits. *)
Definition digit_value (c : ascii) : Z := Z.of_N (code c) - 48.

Fixpoint digits_value_from (acc : Z) (s : string) : Z :=
  match s with
  | EmptyString => acc
  | String c s' => digits_value_from (10 * acc + digit_value c) s'
  end.

Definition digits_value (s : string) : Z := digits_value_from 0 s.

(** Digit groups of an [int] literal: digits, single underscores
    only between digits. *)
Fixpoint int_body (prev_digit : bool) (s : string) : option string :=
  match s with
  | EmptyString => if prev_digit then Some EmptyString else None
  | String c s' =>
      if is_digit c then
        match int_body true s' with
        | Some r => Some (String c r)
        | None => None
        end
      else if Ascii.eqb c "_" && prev_digit then int_body false s'
      else None
  end.

(** [sys.get_int_max_str_digits()] of an interpreter that is started
    without a setting of its own. *)
Definition MAX_STR_DIGITS : Z := 4300.

(** The value of the digits [ds] of a literal, underscores left out;
    [None] stands for the [ValueError] of a literal with more digits
    than the interpreter converts. Leading zeros count. *)
Definition int_of_digits (ds : string) : option Z :=
  if Z.of_nat (String.length ds) <=? MAX_STR_DIGITS then Some (digits_value ds)
  else None.

(** [int(s)] in base ten; [None] stands for [ValueError]. *)
Definition py_int (s : string) : option Z :=
  match strip s with
  | String "-" b =>
      match int_body false b with
      | Some ds => option_map Z.opp (int_of_digits ds)
      | None => None
      end
  | String "+" b =>
      match int_body false b with
      | Some ds => int_of_digits ds
      | None => None
      end
  | b =>
      match int_body false b with
      | Some ds => int_of_digits ds
      | None => None
      end
  end.

(** [re.sub] of the pattern [[^\d]] by the empty string: the digits stay *)
Definition remove_non_digits (s : string) : string := filter is_digit s.

(** A match of [\d+\.\d+] anchored at the head of [s]. The repeats
    are greedy, and since a digit is never a dot, giving back digits
    never helps: the match is the longest digit run, a dot and the
    longest digit run after it. *)
Definition decimal_here (s : string) : option string :=
  match take_while is_digit s with
  | EmptyString => None
  | whole =>
      match drop_while is_digit s with
      | String "." r =>
          match take_while is_digit r with
          | EmptyString => None
          | frac => Some (whole ++ "." ++ frac)
          end
      | _ => None
      end
  end.

(** [re.findall(r"\d+\.\d+", s)[0]] when there is a match: the
    leftmost one. *)
Fixpoint first_decimal (s : string) : option string :=
  match decimal_here s with
  | Some m => Some m
  | None => match s with
            | EmptyString => None
            | String _ s' => first_decimal s'
            end
  end.

(** A match of [Scored\s+(\d+\.\d+)] anchored at the head of [s];
    the answer is group 1. *)
Definition scored_here (s : string) : option string :=
  match starts_with "Scored" s with
  | Some r =>
      match take_while is_space r with
      | EmptyString => None
      | _ => decimal_here (drop_while is_space r)
      end
  | None => None
  end.

(** [re.search(r"Scored\s+(\d+\.\d+)", s)], group 1 *)
Fixpoint search_scored (s : string) : option string :=
  match scored_here s with
  | Some m => Some m
  | None => match s with
            | EmptyString => None
            | String _ s' => search_scored s'
            end
  end.

Fixpoint pow10 (n : nat) : positive :=
  match n with
  | O => 1%positive
  | S n' => (10 * pow10 n')%positive
  end.

(** [float(m)] for a text [m] matched by [\d+\.\d+]: the fraction
    whose numerator is all the digits and whose denominator is the
    power of ten counting the digits after the dot. *)
Definition float_of_decimal (m : string) : Q :=
  let whole := take_while is_digit m in
  let frac := match drop_while is_digit m with
              | String _ r => r
              | EmptyString => EmptyString
              end in
  Qmake (digits_value (whole ++ frac)) (pow10 (String.length frac)).

End Text.


(** ** Python values and dictionaries *)

Inductive pyval : Type :=
  | PNone
  | PBool (b : bool)
  | PInt (z : Z)
  | PFloat (q : Q)
  | PStr (s : string).

(** A [dict] with string keys, in insertion order. *)
Abbreviation pydict := (list (string * pyval)).

Definition keys (d : pydict) : list string := map fst d.

(** [d[k] = v]: an existing key keeps its place, a new one goes last. *)
Fixpoint dict_set (k : string) (v : pyval) (d : pydict) : pydict :=
  match d with
  | [] => [(k, v)]
  | (k', v') :: d' =>
      if String.eqb k k' then (k, v) :: d' else (k', v') :: dict_set k v d'
  end.

Fixpoint dict_get (k : string) (d : pydict) : option pyval :=
  match d with
  | [] => None
  | (k', v') :: d' => if String.eqb k k' then Some v' else dict_get k d'
  end.

(** ** The page driver *)

Inductive locator : Type :=
  | GetByRole (role name : string) (exact : bool)
  | Locator (selector : string)
  | Nth (l : locator) (i : nat)
  | Sub (parent : locator) (selector : string)
  | SubByRole (parent : locator) (role name : string)
  | FilterHasText (l : locator) (text : string).

Inductive action : Type :=
  | PlaywrightStart
  | PlaywrightStop
  | LaunchChromium (headless : bool) (slow_mo : Z)
  | NewContext
  | NewPage
  | Goto (url : string)
  | Click (l : locator)
  | Fill (l : locator) (text : string)
  | MouseClick (x y : Z)
  | Evaluate (js : string)
  | WaitFor (l : locator) (state : string) (timeout_ms : Z)
  | WaitForFunction (js : string) (timeout_ms : Z)
  | CloseContext
  | CloseBrowser.

Inductive reply (A : Type) : Type :=
  | Done (a : A)
  | Failed (e : exn).
Arguments Done {A} a.
Arguments Failed {A} e.

(** What the browser and the site answer, over a world [W] that holds
    whatever they remember. [drv_sleep] is the passing of time and
    [drv_uniform] is [random.uniform]. *)
Record driver (W : Type) : Type := {
  drv_do : action -> W -> reply unit * W;
  drv_is_visible : locator -> W -> reply bool * W;
  drv_count : locator -> W -> reply nat * W;
  drv_inner_text : locator -> option Z -> W -> reply string * W;
  drv_get_attribute : locator -> string -> W -> reply (option string) * W;
  drv_sleep : Q -> W -> W;
  drv_uniform : Q -> Q -> W -> Q * W
}.
Arguments drv_do {W} _ _ _.
Arguments drv_is_visible {W} _ _ _.
Arguments drv_count {W} _ _ _.
Arguments drv_inner_text {W} _ _ _ _.
Arguments drv_get_attribute {W} _ _ _ _.
Arguments drv_sleep {W} _ _ _.
Arguments drv_uniform {W} _ _ _ _.

(** What a run leaves behind for an observer. *)
Inductive event : Type :=
  | EDo (a : action)
  | ESleep (seconds : Q)
  | EPrintTotal (total : Z).

(** A CSV file is its lines; the header line is told apart from the
    data lines. *)
Inductive csv_line : Type :=
  | Header (columns : list string)
  | Row (cells : list pyval).

Definition is_header (l : csv_line) : bool :=
  match l with Header _ => true | Row _ => false end.

Abbreviation filesystem := (gmap string (list csv_line)).

(** ** The effect monad: world and trace, with exceptions *)

Record state (W : Type) : Type := mkState {
  env : W;
  trace : list event
}.
Arguments mkState {W} _ _.
Arguments env {W} _.
Arguments trace {W} _.

Definition M (W A : Type) : Type := state W -> outcome A * state W.

Definition ret {W A} (a : A) : M W A := fun s => (Ok a, s).

Definition bind {W A B} (c : M W A) (k : A -> M W B) : M W B :=
  fun s => match c s with
           | (Ok a, s') => k a s'
           | (Raise e, s') => (Raise e, s')
           | (Spin, s') => (Spin, s')
           end.

Definition raise {W A} (e : exn) : M W A := fun s => (Raise e, s).

Definition spin {W A} : M W A := fun s => (Spin, s).

(** [try: c  except <classes accepted by handles> as e: h e] *)
Definition try_except {W A} (c : M W A) (handles : exn -> bool) (h : exn -> M W A)
  : M W A :=
  fun s => match c s with
           | (Raise e, s') => if handles e then h e s' else (Raise e, s')
           | r => r
           end.

(** [try: c  finally: f] *)
Definition try_finally {W A} (c : M W A) (f : M W unit) : M W A :=
  fun s => match c s with
           | (Ok a, s') => bind f (fun _ => ret a) s'
           | (Raise e, s') => bind f (fun _ => raise e) s'
           | (Spin, s') => (Spin, s')
           end.

Definition any_Exception (e : exn) : bool := true.

Declare Scope monad_scope.
Delimit Scope monad_scope with monad.
Notation "x <- c ;; k" := (bind c (fun x => k))
  (at level 20, c at level 99, k at level 200, only parsing) : monad_scope.
Notation "c ;; k" := (bind c (fun _ => k))
  (at level 100, k at level 200, only parsing, right associativity) : monad_scope.
Local Open Scope monad_scope.

Definition of_reply {A} (r : reply A) : outcome A :=
  match r with Done a => Ok a | Failed e => Raise e end.

Definition of_option {W A} (e : exn) (o : option A) : M W A :=
  match o with Some a => ret a | None => raise e end.

(** [for x in xs: body x] *)
Fixpoint for_each {W A} (xs : list A) (body : A -> M W unit) : M W unit :=
  match xs with
  | [] => ret tt
  | x :: xs' => body x ;; for_each xs' body
  end.


(** ** The scraper, over any driver *)

Definition dquote : string := String "034"%char EmptyString.

Definition property_cards : locator := Locator "div[data-testid='property-card']".

Definition load_more_results : locator := GetByRole "button" "Load more results" false.

(** What one round of the loader's loop decides: [break], or go on
    with the new value of [clicks]. *)
Inductive round_end : Type :=
  | Break
  | Next (clicks : Z).

(** Lines 324 and 325: the date-stamped name of a run's file, [now]
    being the day that [datetime.now()] answers. *)
Definition run_csv_filename (now : Z) : string :=
  let run_date := Date.strftime_Ymd now in
  "booking_com_" ++ run_date ++ ".csv".

Section Scraper.

Context {W : Type} (D : driver W).

#[local] Abbreviation M := (M W).

Definition call (a : action) : M unit := fun s =>
  let '(r, w) := drv_do D a (env s) in
  (of_reply r, mkState w (trace s ++ [EDo a])).

Definition is_visible (l : locator) : M bool := fun s =>
  let '(r, w) := drv_is_visible D l (env s) in
  (of_reply r, mkState w (trace s)).

Definition count (l : locator) : M nat := fun s =>
  let '(r, w) := drv_count D l (env s) in
  (of_reply r, mkState w (trace s)).

Definition inner_text (l : locator) (timeout : option Z) : M string := fun s =>
  let '(r, w) := drv_inner_text D l timeout (env s) in
  (of_reply r, mkState w (trace s)).

Definition get_attribute (l : locator) (name : string) : M (option string) := fun s =>
  let '(r, w) := drv_get_attribute D l name (env s) in
  (of_reply r, mkState w (trace s)).

(** [time.sleep(seconds)] *)
Definition sleep (seconds : Q) : M unit := fun s =>
  (Ok tt, mkState (drv_sleep D seconds (env s)) (trace s ++ [ESleep seconds])).

(** [random.uniform(lo, hi)] *)
Definition random_uniform (lo hi : Q) : M Q := fun s =>
  let '(x, w) := drv_uniform D lo hi (env s) in
  (Ok x, mkState w (trace s)).

(** *** Helper functions *)

Definition fallback_click (x y : Z) : M unit :=
  try_except (call (MouseClick x y)) any_Exception (fun _ => ret tt).

(** The loop is [while scrolled < total_scroll]; with a positive
    [step] it ends within [total_scroll] rounds, and otherwise it
    never ends, so fuel of [total_scroll + 1] decides it. *)
Fixpoint human_like_scroll_loop (fuel : nat) (scrolled total_scroll step max_delay : Z)
  : M Z :=
  match fuel with
  | O => spin
  | S fuel' =>
      if scrolled <? total_scroll then
        call (Evaluate ("window.scrollBy(0, " ++ Date.decimal step ++ ");")) ;;
        pause <- random_uniform (1 # 10) (max_delay # 1000) ;;
        sleep pause ;;
        human_like_scroll_loop fuel' (scrolled + step) total_scroll step max_delay
      else ret scrolled
  end.

Definition human_like_scroll (total_scroll step max_delay : Z) : M unit :=
  human_like_scroll_loop (Z.to_nat total_scroll + 1) 0 total_scroll step max_delay ;;
  ret tt.

Definition full_scroll_bottom (attempts pause : Z) : M unit :=
  for_each (py_range 0 attempts) (fun _ =>
    call (Evaluate "() => { if (document.body) { window.scrollTo(0, document.body.scrollHeight); } }") ;;
    sleep (inject_Z pause)).

(** [while not <checkbox>.is_visible() and attempts < max_attempts];
    [attempts] grows by one each round, so [max_attempts + 1] rounds
    of fuel are never used up. *)
Fixpoint ensure_date_visible_loop (fuel : nat) (date_str : string)
    (max_attempts attempts : Z) : M Z :=
  match fuel with
  | O => spin
  | S fuel' =>
      visible <- is_visible (GetByRole "checkbox" date_str true) ;;
      if negb visible && (attempts <? max_attempts) then
        try_except
          (call (Click (GetByRole "button" "Next month" false)) ;;
           sleep 1)
          any_Exception
          (fun _ => fallback_click 10 10) ;;
        ensure_date_visible_loop fuel' date_str max_attempts (attempts + 1)
      else ret attempts
  end.

Definition ensure_date_visible (date_str : string) (max_attempts : Z) : M unit :=
  ensure_date_visible_loop (Z.to_nat max_attempts + 1) date_str max_attempts 0 ;;
  ret tt.

Definition dismiss_genius_popup_if_present (timeout : Z) : M unit :=
  let popup_dialog := FilterHasText (GetByRole "dialog" EmptyString false) "Sign in, save money" in
  try_except
    (call (WaitFor popup_dialog "visible" (timeout * 1000)) ;;
     call (Click (SubByRole popup_dialog "button" "Close")))
    any_Exception
    (fun e =>
       match e with
       | PwTimeout _ => ret tt
       | PwError _ =>
           if Text.contains "Target closed" (exn_str e) then ret tt
           else fallback_click 10 10
       | PyExc _ _ => fallback_click 10 10
       end).

(** *** Incremental loader *)

(** One pass through the body of [while clicks < max_clicks]. *)
Definition load_round (min_count clicks : Z) : M round_end :=
  full_scroll_bottom 3 2 ;;
  human_like_scroll 1000 100 500 ;;
  button <- try_except
    (call (WaitFor load_more_results "visible" 5000) ;; ret true)
    is_TimeoutError
    (fun _ =>
       dismiss_genius_popup_if_present 3 ;;
       sleep 2 ;;
       full_scroll_bottom 3 2 ;;
       try_except
         (call (WaitFor load_more_results "visible" 5000) ;; ret true)
         is_TimeoutError
         (fun _ => ret false)) ;;
  if button : bool then
    current_count <- count property_cards ;;
    if min_count <=? Z.of_nat current_count then ret Break
    else
      clicked <- try_except
        (call (Click load_more_results) ;; ret true)
        any_Exception
        (fun _ => fallback_click 10 10 ;; ret false) ;;
      let clicks := clicks + 1 in
      if clicked : bool then
        try_except
          (call (WaitForFunction
                   ("document.querySelectorAll('div[data-testid=" ++ dquote
                    ++ "property-card" ++ dquote ++ "]').length > "
                    ++ Date.decimal (Z.of_nat current_count)) 10000) ;;
           ret (Next clicks))
          is_TimeoutError
          (fun _ => ret (Next (clicks + 1)))
      else ret (Next clicks)
  else ret (Next (clicks + 1)).

(** Every round either breaks or adds at least one to [clicks], so
    [max_clicks + 1] rounds of fuel are never used up. The answer is
    the number of rounds made. *)
Fixpoint load_hotel_cards_loop (fuel : nat) (min_count max_clicks clicks : Z)
    (rounds : nat) : M nat :=
  match fuel with
  | O => spin
  | S fuel' =>
      if clicks <? max_clicks then
        r <- load_round min_count clicks ;;
        match r with
        | Break => ret (S rounds)
        | Next clicks' =>
            load_hotel_cards_loop fuel' min_count max_clicks clicks' (S rounds)
        end
      else ret rounds
  end.

(** The source returns the locator of the cards after reading their
    final number; the model returns both, and the number of rounds. *)
Definition load_hotel_cards_rounds (min_count max_clicks : Z)
  : M (locator * nat * nat) :=
  rounds <- load_hotel_cards_loop (Z.to_nat max_clicks + 1) min_count max_clicks 0 0 ;;
  full_scroll_bottom 2 2 ;;
  sleep 2 ;;
  final_count <- count property_cards ;;
  ret (property_cards, final_count, rounds).

Definition load_hotel_cards (min_count max_clicks : Z) : M locator :=
  r <- load_hotel_cards_rounds min_count max_clicks ;;
  ret r.1.1.


(** *** Record extractor *)

(** The thirteen [try ... except Exception] blocks of the loop body,
    one per field, in the order of the source. *)
Definition field_hotel_name (card : locator) : M pyval :=
  try_except
    (t <- inner_text (Sub card "[data-testid='title']") (Some 2000) ;;
     ret (PStr (Text.strip t)))
    any_Exception (fun _ => ret (PStr "N/A")).

Definition field_star_rating (card : locator) : M pyval :=
  try_except
    (star_text <- get_attribute (Sub card "div.b3f3c831be") "aria-label" ;;
     match star_text with
     | None | Some EmptyString => ret PNone
     | Some t =>
         tok <- of_option IndexError (Text.first_token t) ;;
         n <- of_option ValueError (Text.py_int tok) ;;
         ret (PInt n)
     end)
    any_Exception (fun _ => ret PNone).

Definition field_rating_score (card : locator) : M pyval :=
  try_except
    (review_score_text <- inner_text (Sub card "[data-testid='review-score']") (Some 2000) ;;
     match Text.first_decimal review_score_text with
     | Some m => ret (PFloat (Text.float_of_decimal m))
     | None => ret PNone
     end)
    any_Exception (fun _ => ret PNone).

Definition field_location_score (card : locator) : M pyval :=
  try_except
    (loc_score_text <- get_attribute
       (Sub card "a[data-testid='secondary-review-score-link']") "aria-label" ;;
     t <- of_option TypeError loc_score_text ;;
     match Text.search_scored t with
     | Some m => ret (PFloat (Text.float_of_decimal m))
     | None => ret PNone
     end)
    any_Exception (fun _ => ret PNone).

Definition field_review_amount (card : locator) : M pyval :=
  try_except
    (review_amount_text <- inner_text
       (Sub card "div.abf093bdfe.f45d8e4c32.d935416c47") (Some 2000) ;;
     n <- of_option ValueError (Text.py_int (Text.remove_non_digits review_amount_text)) ;;
     ret (PInt n))
    any_Exception (fun _ => ret PNone).

Definition field_bed_info (card : locator) : M pyval :=
  try_except
    (t <- inner_text
       (Sub card "div[data-testid='availability-single'] ul.ba51609c35 li:nth-child(1) div.abf093bdfe")
       (Some 2000) ;;
     ret (PStr (Text.strip t)))
    any_Exception (fun _ => ret (PStr "N/A")).

Definition field_price (card : locator) : M pyval :=
  try_except
    (t <- inner_text (Sub card "[data-testid='price-and-discounted-price']") (Some 2000) ;;
     ret (PStr (Text.strip t)))
    any_Exception (fun _ => ret (PStr "N/A")).

Definition field_breakfast_included (card : locator) : M pyval :=
  try_except
    (b <- is_visible (Sub card "text=Breakfast included") ;; ret (PBool b))
    any_Exception (fun _ => ret (PBool false)).

Definition field_free_cancellation (card : locator) : M pyval :=
  try_except
    (b <- is_visible (Sub card "strong:has-text('Free cancellation')") ;; ret (PBool b))
    any_Exception (fun _ => ret (PBool false)).

Definition field_no_prepayment_needed (card : locator) : M pyval :=
  try_except
    (b <- is_visible (Sub card "strong:has-text('No prepayment needed')") ;; ret (PBool b))
    any_Exception (fun _ => ret (PBool false)).

Definition field_centrally_located (card : locator) : M pyval :=
  try_except
    (t <- inner_text card None ;;
     let card_text := Text.lower t in
     ret (PBool (Text.contains "centrally" card_text
                 || Text.contains "subway access" card_text)))
    any_Exception (fun _ => ret (PBool false)).

Definition field_sustainability_cert (card : locator) : M pyval :=
  try_except
    (b <- is_visible (Sub card "text=Sustainability certification") ;; ret (PBool b))
    any_Exception (fun _ => ret (PBool false)).

Definition field_distance_from_downtown (card : locator) : M pyval :=
  try_except
    (t <- inner_text (Sub card "span[data-testid='distance']") (Some 2000) ;;
     ret (PStr (Text.strip t)))
    any_Exception (fun _ => ret (PStr EmptyString)).

(** The body of [for i in range(min(count, 100))] for one card. *)
Definition extract_card (card : locator) : M pydict :=
  hotel_name <- field_hotel_name card ;;
  star_rating <- field_star_rating card ;;
  rating_score <- field_rating_score card ;;
  location_score <- field_location_score card ;;
  review_amount <- field_review_amount card ;;
  bed_info <- field_bed_info card ;;
  price_text <- field_price card ;;
  breakfast_included <- field_breakfast_included card ;;
  free_cancellation <- field_free_cancellation card ;;
  no_prepayment_needed <- field_no_prepayment_needed card ;;
  centrally_located <- field_centrally_located card ;;
  sustainability_cert <- field_sustainability_cert card ;;
  distance_from_downtown <- field_distance_from_downtown card ;;
  ret [ ("hotel_name", hotel_name);
        ("star_rating", star_rating);
        ("rating_score", rating_score);
        ("location_score", location_score);
        ("review_amount", review_amount);
        ("bed_info", bed_info);
        ("price", price_text);
        ("breakfast_included", breakfast_included);
        ("free_cancellation", free_cancellation);
        ("no_prepayment_needed", no_prepayment_needed);
        ("centrally_located", centrally_located);
        ("sustainability_certification", sustainability_cert);
        ("distance_from_downtown", distance_from_downtown) ].

Fixpoint extract_cards (hotel_cards : locator) (indices : list nat)
    (hotels_data : list pydict) : M (list pydict) :=
  match indices with
  | [] => ret hotels_data
  | i :: rest =>
      hotel_dict <- extract_card (Nth hotel_cards i) ;;
      extract_cards hotel_cards rest (hotels_data ++ [hotel_dict])
  end.

Definition extract_hotel_data : M (list pydict) :=
  let hotel_cards := property_cards in
  n <- count hotel_cards ;;
  extract_cards hotel_cards (seq 0 (Nat.min n 100)) [].

(** *** Task executor *)

Definition BASE_URL : string := "https://www.booking.com".

(** One attempt. [with sync_playwright()] stops the driver on every
    way out of its block. *)
Definition scrape_date_combination_sync (checkin checkout : Z) : M (list pydict) :=
  call PlaywrightStart ;;
  try_finally
    (call (LaunchChromium false 0) ;;
     call NewContext ;;
     call NewPage ;;
     call (Goto BASE_URL) ;;
     call (Click (GetByRole "combobox" "Where are you going?" false)) ;;
     call (Fill (GetByRole "combobox" "Where are you going?" false) "new york") ;;
     call (Click (GetByRole "button" "New York New York, United" false)) ;;
     let checkin_str := Date.strftime_d_B_Y checkin in
     let checkout_str := Date.strftime_d_B_Y checkout in
     ensure_date_visible checkin_str 12 ;;
     call (Click (GetByRole "checkbox" checkin_str true)) ;;
     ensure_date_visible checkout_str 12 ;;
     call (Click (GetByRole "checkbox" checkout_str true)) ;;
     call (Click (GetByRole "button" "Search" false)) ;;
     sleep 3 ;;
     load_hotel_cards 100 5 ;;
     hotels <- extract_hotel_data ;;
     let hotels :=
       map (fun hotel =>
              dict_set "checkout" (PStr checkout_str)
                (dict_set "checkin" (PStr checkin_str) hotel)) hotels in
     call CloseContext ;;
     call CloseBrowser ;;
     ret hotels)
    (call PlaywrightStop).

(** [while True]: one unit of fuel per attempt. *)
Fixpoint scrape_date_combination_sync_retry (fuel : nat) (checkin checkout : Z)
  : M (list pydict) :=
  match fuel with
  | O => spin
  | S fuel' =>
      hotels <- scrape_date_combination_sync checkin checkout ;;
      if (100 <=? length hotels)%nat then ret hotels
      else
        sleep 2 ;;
        scrape_date_combination_sync_retry fuel' checkin checkout
  end.

(** *** Result sink *)

(** Columns of [pd.DataFrame(data)] for a list of dicts: the keys in
    order of first appearance. *)
Definition DataFrame_columns (data : list pydict) : list string :=
  fold_left
    (fun cols d =>
       (cols ++ List.filter (fun k => negb (existsb (String.eqb k) cols)) (keys d))%list)
    data [].

(** [pd.DataFrame(data)] brings the values of each column to one
    dtype, as [lib.maybe_convert_objects] finds it in one pass over the
    column. What the pass has seen: *)
Inductive dtype : Type :=
  | object_
  | bool_
  | int64
  | uint64
  | float64.

Definition INT64_MIN : Z := - 2 ^ 63.
Definition INT64_MAX : Z := 2 ^ 63 - 1.
Definition UINT64_MAX : Z := 2 ^ 64 - 1.

Record seen : Type := mkSeen {
  seen_null : bool;     (* a [None] *)
  seen_nan : bool;      (* a key that the record does not have: NaN *)
  seen_bool : bool;
  seen_int : bool;
  seen_uint : bool;     (* an int above [INT64_MAX] *)
  seen_sint : bool;     (* a negative int *)
  seen_float : bool;
  seen_object : bool    (* a text, or an int that no 64-bit dtype holds *)
}.

Definition seen_nothing : seen :=
  mkSeen false false false false false false false false.

(** The pass over a column; [None] is the place of a key that a record
    does not have. A text ends the pass, and so does an int out of
    range that comes before any [None]. The model is for ints that a
    double can hold. *)
Fixpoint maybe_convert_objects (vs : list (option pyval)) (sn : seen) : seen :=
  let '(mkSeen null nan bool int uint sint float object) := sn in
  match vs with
  | [] => sn
  | None :: vs' =>
      maybe_convert_objects vs' (mkSeen null true bool int uint sint float object)
  | Some PNone :: vs' =>
      maybe_convert_objects vs' (mkSeen true nan bool int uint sint float object)
  | Some (PBool _) :: vs' =>
      maybe_convert_objects vs' (mkSeen null nan true int uint sint float object)
  | Some (PFloat _) :: vs' =>
      maybe_convert_objects vs' (mkSeen null nan bool int uint sint true object)
  | Some (PInt z) :: vs' =>
      if null then
        maybe_convert_objects vs' (mkSeen null nan bool true uint sint float object)
      else
        let uint := uint || ((INT64_MAX <? z) && (z <=? UINT64_MAX)) in
        let sint := sint || ((INT64_MIN <=? z) && (z <? 0)) in
        if (uint && sint) || (UINT64_MAX <? z) || (z <? INT64_MIN)
        then mkSeen null nan bool true uint sint float true
        else maybe_convert_objects vs' (mkSeen null nan bool true uint sint float object)
  | Some (PStr _) :: vs' => mkSeen null nan bool int uint sint float true
  end.

(** The dtype that comes out of the pass. *)
Definition infer_dtype (sn : seen) : dtype :=
  if seen_object sn then object_
  else if seen_bool sn then
    if seen_null sn || seen_nan sn || seen_int sn || seen_float sn
    then object_ else bool_
  else if seen_null sn || seen_nan sn then
    if seen_float sn || seen_int sn || seen_nan sn then float64 else object_
  else if seen_float sn then float64
  else if seen_int sn then (if seen_uint sn then uint64 else int64)
  else object_.

Definition column_dtype (data : list pydict) (c : string) : dtype :=
  infer_dtype (maybe_convert_objects (map (dict_get c) data) seen_nothing).

(** The value that the frame holds in a column of dtype [t] for the
    value [v] of a record: an int of a [float64] column is held as a
    float, and what is missing, [None] or NaN, is [PNone] here: the
    empty field of the CSV line. A float [PFloat q] is the double
    nearest to [q]. *)
Definition frame_value (t : dtype) (v : option pyval) : pyval :=
  match v with
  | None => PNone
  | Some (PInt z) =>
      match t with
      | float64 => PFloat (inject_Z z)
      | _ => PInt z
      end
  | Some v => v
  end.

(** The data lines of [df.to_csv(..., index=False)], one per record and
    in the order of the records. *)
Definition DataFrame_rows (data : list pydict) : list csv_line :=
  let cols := map (fun c => (c, column_dtype data c)) (DataFrame_columns data) in
  map (fun d => Row (map (fun ct : string * dtype => frame_value ct.2 (dict_get ct.1 d)) cols))
    data.

(** The body runs under [with lock], so it is one step on the files. *)
Definition write_to_csv (data : list pydict) (csv_filename : string)
    (fs : filesystem) : filesystem :=
  match fs !! csv_filename with
  | None =>
      <[csv_filename := Header (DataFrame_columns data) :: DataFrame_rows data]> fs
  | Some lines =>
      <[csv_filename := (lines ++ DataFrame_rows data)%list]> fs
  end.

(** *** Worker *)

(** A worker process drives its own browser, from the world [w], and
    shares only the files with the others. The answer comes with the
    files as the worker leaves them and with what it did. *)
Definition worker (fuel : nat) (args : Z * Z * string) (w : W) (fs : filesystem)
  : outcome Z * filesystem * list event :=
  let '(checkin, checkout, csv_filename) := args in
  match scrape_date_combination_sync_retry fuel checkin checkout (mkState w []) with
  | (Ok hotels, s) =>
      (Ok (Z.of_nat (length hotels)), write_to_csv hotels csv_filename fs, trace s)
  | (Raise e, s) => (Raise e, fs, trace s)
  | (Spin, s) => (Spin, fs, trace s)
  end.

(** *** Worker pool dispatcher *)

(** [Pool.map] cuts the argument list into chunks of this size; one
    chunk is one job of the pool. *)
Definition chunksize (n processes : nat) : nat :=
  if (n =? 0)%nat then 0%nat
  else if (n mod (processes * 4) =? 0)%nat then (n / (processes * 4))%nat
  else S (n / (processes * 4)).

Record pool_state : Type := mkPool {
  p_files : filesystem;
  p_trace : list event;
  p_counts : gmap nat Z;
  p_failed : list nat;
  p_error : option exn
}.

Definition chunk_failed (cs : nat) (ps : pool_state) (i : nat) : bool :=
  existsb (Nat.eqb (i / cs)) (p_failed ps).

Definition task_done (ps : pool_state) (i : nat) : bool :=
  match p_counts ps !! i with Some _ => true | None => false end.

(** The pool at work. The processes run side by side; [order] lists
    the tasks in the order in which their workers come to an end, each
    worker on the world [site i] of its own browser. A job runs its
    chunk in sequence and is over at the first exception, so the rest
    of a failed chunk is not run. [None] is a worker that never
    ends. *)
Fixpoint pool_run (fuel : nat) (site : nat -> W) (args_list : list (Z * Z * string))
    (cs : nat) (order : list nat) (ps : pool_state) : option pool_state :=
  match order with
  | [] => Some ps
  | i :: order' =>
      match args_list !! i with
      | None => pool_run fuel site args_list cs order' ps
      | Some args =>
          if chunk_failed cs ps i || task_done ps i
          then pool_run fuel site args_list cs order' ps
          else
            match worker fuel args (site i) (p_files ps) with
            | (Ok n, fs, tr) =>
                pool_run fuel site args_list cs order'
                  (mkPool fs (p_trace ps ++ tr) (<[i := n]> (p_counts ps))
                     (p_failed ps) (p_error ps))
            | (Raise e, fs, tr) =>
                pool_run fuel site args_list cs order'
                  (mkPool fs (p_trace ps ++ tr) (p_counts ps)
                     ((i / cs)%nat :: p_failed ps)
                     (match p_error ps with Some e0 => Some e0 | None => Some e end))
            | (Spin, _, _) => None
            end
      end
  end.

(** [pool.map(worker, args_list)] with 24 processes: it answers when
    every job is over, with the counts in the order of the arguments,
    or with the first exception that arrived. A schedule that ends
    before the pool does is a call that has not come back. *)
Definition pool_map (fuel : nat) (site : nat -> W) (args_list : list (Z * Z * string))
    (order : list nat) (fs : filesystem)
  : outcome (list Z) * filesystem * list event :=
  let n := length args_list in
  let cs := chunksize n 24 in
  match pool_run fuel site args_list cs order (mkPool fs [] ∅ [] None) with
  | None => (Spin, fs, [])
  | Some ps =>
      if forallb (fun i => chunk_failed cs ps i || task_done ps i) (seq 0 n) then
        match p_error ps with
        | Some e => (Raise e, p_files ps, p_trace ps)
        | None =>
            (Ok (map (fun i => default 0 (p_counts ps !! i)) (seq 0 n)),
             p_files ps, p_trace ps)
        end
      else (Spin, p_files ps, p_trace ps)
  end.

(** Line 321: the task list of a run. *)
Definition scrape_all_dates_sync_dates (ttt los : Z) (start_date end_date : option Z)
    (today : Z) : outcome (list task) :=
  get_dates today start_date end_date los.

(** [today] and [now] are the days that [datetime.today()] in
    [get_dates] and [datetime.now()] here answer; [fs] is the working
    directory. *)
Definition scrape_all_dates_sync (fuel : nat) (ttt los : Z)
    (start_date end_date : option Z) (today now : Z)
    (site : nat -> W) (order : list nat) (fs : filesystem)
  : outcome pyval * filesystem * list event :=
  match scrape_all_dates_sync_dates ttt los start_date end_date today with
  | Ok dates =>
      let csv_filename := run_csv_filename now in
      let fs := match fs !! csv_filename with
                | Some _ => delete csv_filename fs
                | None => fs
                end in
      let args_list :=
        map (fun '(checkin, checkout) => (checkin, checkout, csv_filename)) dates in
      match pool_map fuel site args_list order fs with
      | (Ok all_counts, fs', tr) =>
          let total := fold_left Z.add all_counts 0 in
          (Ok (PStr csv_filename), fs', (tr ++ [EPrintTotal total])%list)
      | (Raise e, fs', tr) => (Raise e, fs', tr)
      | (Spin, fs', tr) => (Spin, fs', tr)
      end
  | Raise e => (Raise e, fs, [])
  | Spin => (Spin, fs, [])
  end.

Definition data_rows (lines : list csv_line) : nat :=
  length (List.filter (fun l => negb (is_header l)) lines).

(** [main] answers the number of records it reads back. *)
Definition main (fuel : nat) (today now : Z) (site : nat -> W) (order : list nat)
    (fs : filesystem) : outcome nat * filesystem * list event :=
  let TTT := 30 in
  let LOS := 5 in
  match scrape_all_dates_sync fuel TTT LOS None None today now site order fs with
  | (Ok (PStr csv_filename), fs', tr) =>
      match fs' !! csv_filename with
      | Some lines => (Ok (data_rows lines), fs', tr)
      | None => (Raise (PyExc "FileNotFoundError" csv_filename), fs', tr)
      end
  | (Ok _, fs', tr) => (Raise TypeError, fs', tr)
  | (Raise e, fs', tr) => (Raise e, fs', tr)
  | (Spin, fs', tr) => (Spin, fs', tr)
  end.

End Scraper.


(** ** Vocabulary of the statements *)

(** A computation that comes back, with a value or an exception, from
    every state, and one that always comes back with a value. *)
Definition ends {W A} (c : M W A) : Prop :=
  forall s, fst (c s) <> Spin.

Definition returns {W A} (c : M W A) : Prop :=
  forall s, exists a s', c s = (Ok a, s').

(** Whenever the computation answers, its answer satisfies [P]. *)
Definition post {W A} (c : M W A) (P : A -> Prop) : Prop :=
  forall s a s', c s = (Ok a, s') -> P a.


(** [k] attempts in a row, from state [s], each coming back with fewer
    than 100 records and followed by the pause; [s2] is the state in
    which the next attempt starts. *)
Inductive short_attempts {W} (D : driver W) (checkin checkout : Z)
  : nat -> state W -> state W -> Prop :=
  | short_none s : short_attempts D checkin checkout 0 s s
  | short_more k s hotels s1 s2 :
      scrape_date_combination_sync D checkin checkout s = (Ok hotels, s1) ->
      (length hotels < 100)%nat ->
      short_attempts D checkin checkout k (snd (sleep D 2 s1)) s2 ->
      short_attempts D checkin checkout (S k) s s2.


(** The columns of a hotel record as [extract_hotel_data] builds it, and
    of a record as it reaches the sink. *)
Definition hotel_fields : list string :=
  [ "hotel_name"; "star_rating"; "rating_score"; "location_score";
    "review_amount"; "bed_info"; "price"; "breakfast_included";
    "free_cancellation"; "no_prepayment_needed"; "centrally_located";
    "sustainability_certification"; "distance_from_downtown" ].

Definition csv_schema : list string := (hotel_fields ++ ["checkin"; "checkout"])%list.




(** [l] holds the records of the cards [i], [i + 1], ... of
    [hotel_cards], extracted one after the other from state [s] on. *)
Inductive extracted_in_order {W} (D : driver W) (hotel_cards : locator)
  : nat -> state W -> list pydict -> state W -> Prop :=
  | extracted_nil i s : extracted_in_order D hotel_cards i s [] s
  | extracted_cons i s d s1 l s2 :
      extract_card D (Nth hotel_cards i) s = (Ok d, s1) ->
      extracted_in_order D hotel_cards (S i) s1 l s2 ->
      extracted_in_order D hotel_cards i s (d :: l) s2.

(** The distinct check-in days of a task list, in order of first
    appearance. *)
Fixpoint checkin_days_from (seen : list Z) (dates : list task) : list Z :=
  match dates with
  | [] => []
  | (checkin, _) :: rest =>
      if existsb (Z.eqb checkin) seen then checkin_days_from seen rest
      else checkin :: checkin_days_from (checkin :: seen) rest
  end.

Definition checkin_days (dates : list task) : list Z := checkin_days_from [] dates.

(** Several batches appended one after the other to one file. *)
Definition append_all (batches : list (list pydict)) (csv_filename : string)
    (fs : filesystem) : filesystem :=
  fold_left (fun fs data => write_to_csv data csv_filename fs) batches fs.

Definition headers (lines : list csv_line) : nat :=
  length (List.filter is_header lines).

(** What the executor of task [i] comes to, in its own world. *)
Definition task_batch {W} (D : driver W) (fuel : nat) (site : nat -> W)
    (dates : list task) (i : nat) : outcome (list pydict) :=
  match dates !! i with
  | Some (checkin, checkout) =>
      fst (scrape_date_combination_sync_retry D fuel checkin checkout (mkState (site i) []))
  | None => Spin
  end.

Definition batch_size (o : outcome (list pydict)) : Z :=
  match o with
  | Ok hotels => Z.of_nat (length hotels)
  | _ => 0
  end.

(** The pool's board is sound when its counts are sizes of accepted
    batches of tasks of [dates], and no job has failed as long as no
    error is on it. *)
Definition pool_sound {W} (D : driver W) (fuel : nat) (site : nat -> W)
    (dates : list task) (ps : pool_state) : Prop :=
  (p_error ps = None -> p_failed ps = [])
  /\ forall i v, p_counts ps !! i = Some v ->
       (i < length dates)%nat
       /\ exists hotels, task_batch D fuel site dates i = Ok hotels
                         /\ v = Z.of_nat (length hotels).

(** How many events of a trace satisfy [p]. *)
Definition count_events (p : event -> bool) (t : list event) : nat :=
  length (List.filter p t).

Definition is_next_month_click (e : event) : bool :=
  match e with
  | EDo (Click (GetByRole "button" "Next month" false)) => true
  | _ => false
  end.

Definition is_load_more_click (e : event) : bool :=
  match e with
  | EDo (Click (GetByRole "button" "Load more results" false)) => true
  | _ => false
  end.

(** From every state, the computation only adds to the trace, and at
    most [n] events that satisfy [p]. *)
Definition adds_at_most {W A} (c : M W A) (p : event -> bool) (n : nat) : Prop :=
  forall s, exists t,
    trace (snd (c s)) = (trace s ++ t)%list /\ (count_events p t <= n)%nat.

(** The computation leaves the trace as it is. *)
Definition silent {W A} (c : M W A) : Prop :=
  forall s, trace (snd (c s)) = trace s.

(** The kinds of value that the fields of a hotel record take. *)
Definition is_text (v : pyval) : bool :=
  match v with PStr _ => true | _ => false end.

Definition is_flag (v : pyval) : bool :=
  match v with PBool _ => true | _ => false end.

Definition is_optional_int (v : pyval) : bool :=
  match v with PNone | PInt _ => true | _ => false end.

Definition is_optional_count (v : pyval) : bool :=
  match v with PNone => true | PInt n => 0 <=? n | _ => false end.

Definition is_optional_score (v : pyval) : bool :=
  match v with PNone => true | PFloat q => Qle_bool 0 q | _ => false end.

Definition field_kinds : list (string * (pyval -> bool)) :=
  [ ("hotel_name", is_text);
    ("star_rating", is_optional_int);
    ("rating_score", is_optional_score);
    ("location_score", is_optional_score);
    ("review_amount", is_optional_count);
    ("bed_info", is_text);
    ("price", is_text);
    ("breakfast_included", is_flag);
    ("free_cancellation", is_flag);
    ("no_prepayment_needed", is_flag);
    ("centrally_located", is_flag);
    ("sustainability_certification", is_flag);
    ("distance_from_downtown", is_text) ].

(** [d] has the fields of [kinds], in order, each of its kind. *)
Fixpoint well_kinded (kinds : list (string * (pyval -> bool))) (d : pydict) : bool :=
  match kinds, d with
  | [], [] => true
  | (k, kind) :: kinds', (k', v) :: d' =>
      String.eqb k k' && kind v && well_kinded kinds' d'
  | _, _ => false
  end.

(** Is every character of [s] a decimal digit. *)
Fixpoint all_digits (s : string) : bool :=
  match s with
  | EmptyString => true
  | String c s' => Text.is_digit c && all_digits s'
  end.

(** The output file accounts for the counts on the pool's board: no
    file while no task is done, and after that one header and 100 rows
    for each task done; the other files are those of [fs0]. *)
Definition pool_accounted (csv_filename : string) (fs0 : filesystem)
    (ps : pool_state) : Prop :=
  (forall other : string, other <> csv_filename -> p_files ps !! other = fs0 !! other)
  /\ exists ran : list nat,
       NoDup ran
       /\ (forall i, In i ran <-> is_Some (p_counts ps !! i))
       /\ match ran with
          | [] => p_files ps !! csv_filename = None
          | _ =>
              exists lines,
                p_files ps !! csv_filename = Some lines
                /\ headers lines = 1%nat
                /\ data_rows lines = (100 * length ran)%nat
          end.

(** ** A scripted site

    A small world on which the scraper can be run: a result list whose
    cards are given in advance, a "load more" control that adds a fixed
    number of cards, and switches for the failures the scraper has to
    live with. *)

Module Site.

(** What a card answers to each lookup of the extractor; [None] is a
    lookup that fails. *)
Record card : Type := mkCard {
  c_title : option string;
  c_stars : option (option string);
  c_review_score : option string;
  c_location : option (option string);
  c_review_amount : option string;
  c_bed : option string;
  c_price : option string;
  c_breakfast : option bool;
  c_free_cancellation : option bool;
  c_no_prepayment : option bool;
  c_text : option string;
  c_sustainability : option bool;
  c_distance : option string
}.

Record world : Type := mkWorld {
  cards : list card;       (* the whole result list *)
  shown : nat;             (* cards on the page now *)
  grow : nat;              (* cards that one "load more" adds *)
  button : bool;           (* is "load more" there *)
  dates_ok : bool;         (* do the calendar's checkboxes take a click *)
  grew : bool;             (* did the last "load more" add cards *)
  later : list nat         (* cards on the page at the start of coming sessions *)
}.

Definition timeout : exn := PwTimeout "Timeout exceeded.".

Definition answer {A} (o : option A) : reply A :=
  match o with Some a => Done a | None => Failed timeout end.

Definition do (a : action) (w : world) : reply unit * world :=
  match a with
  | PlaywrightStart =>
      match later w with
      | n :: rest =>
          (Done tt, mkWorld (cards w) n (grow w) (button w) (dates_ok w) false rest)
      | [] => (Done tt, w)
      end
  | Click (GetByRole "button" "Load more results" _) =>
      let n := Nat.min (shown w + grow w) (length (cards w)) in
      (Done tt, mkWorld (cards w) n (grow w) (button w) (dates_ok w)
                  (shown w <? n)%nat (later w))
  | Click (GetByRole "checkbox" _ _) =>
      if dates_ok w then (Done tt, w) else (Failed timeout, w)
  | WaitFor (GetByRole "button" "Load more results" _) _ _ =>
      if button w then (Done tt, w) else (Failed timeout, w)
  | WaitFor _ _ _ => (Failed timeout, w)
  | WaitForFunction _ _ =>
      if grew w then (Done tt, w) else (Failed timeout, w)
  | _ => (Done tt, w)
  end.

Definition the_card (l : locator) (w : world) : option card :=
  match l with
  | Nth (Locator _) i => if (i <? shown w)%nat then nth_error (cards w) i else None
  | _ => None
  end.

Definition is_visible (l : locator) (w : world) : reply bool * world :=
  match l with
  | Sub c sel =>
      match the_card c w with
      | Some k =>
          if String.eqb sel "text=Breakfast included" then (answer (c_breakfast k), w)
          else if String.eqb sel "strong:has-text('Free cancellation')"
          then (answer (c_free_cancellation k), w)
          else if String.eqb sel "strong:has-text('No prepayment needed')"
          then (answer (c_no_prepayment k), w)
          else if String.eqb sel "text=Sustainability certification"
          then (answer (c_sustainability k), w)
          else (Done false, w)
      | None => (Failed timeout, w)
      end
  | _ => (Done true, w)
  end.

Definition count (l : locator) (w : world) : reply nat * world :=
  (Done (shown w), w).

Definition inner_text (l : locator) (t : option Z) (w : world) : reply string * world :=
  match l with
  | Sub c sel =>
      match the_card c w with
      | Some k =>
          if String.eqb sel "[data-testid='title']" then (answer (c_title k), w)
          else if String.eqb sel "[data-testid='review-score']"
          then (answer (c_review_score k), w)
          else if String.eqb sel "div.abf093bdfe.f45d8e4c32.d935416c47"
          then (answer (c_review_amount k), w)
          else if String.eqb sel "[data-testid='price-and-discounted-price']"
          then (answer (c_price k), w)
          else if String.eqb sel "span[data-testid='distance']"
          then (answer (c_distance k), w)
          else (answer (c_bed k), w)
      | None => (Failed timeout, w)
      end
  | c =>
      match the_card c w with
      | Some k => (answer (c_text k), w)
      | None => (Failed timeout, w)
      end
  end.

Definition get_attribute (l : locator) (name : string) (w : world)
  : reply (option string) * world :=
  match l with
  | Sub c sel =>
      match the_card c w with
      | Some k =>
          if String.eqb sel "div.b3f3c831be" then (answer (c_stars k), w)
          else (answer (c_location k), w)
      | None => (Failed timeout, w)
      end
  | _ => (Failed timeout, w)
  end.

Definition site : driver world := {|
  drv_do := do;
  drv_is_visible := is_visible;
  drv_count := count;
  drv_inner_text := inner_text;
  drv_get_attribute := get_attribute;
  drv_sleep := fun _ w => w;
  drv_uniform := fun lo _ w => (lo, w)
|}.




(** A card with everything on it, and one on which every lookup fails. *)
Definition full_card : card := {|
  c_title := Some " Hotel Example ";
  c_stars := Some (Some "4 out of 5");
  c_review_score := Some "Scored 8.7 Fabulous";
  c_location := Some (Some "Scored 8.3");
  c_review_amount := Some "1,234 reviews";
  c_bed := Some "1 queen bed";
  c_price := Some "US$250";
  c_breakfast := Some true;
  c_free_cancellation := Some false;
  c_no_prepayment := Some true;
  c_text := Some "Hotel Example - Centrally located - Subway Access";
  c_sustainability := Some false;
  c_distance := Some "0.5 miles from downtown"
|}.

Definition blank_card : card := {|
  c_title := None; c_stars := None; c_review_score := None; c_location := None;
  c_review_amount := None; c_bed := None; c_price := None; c_breakfast := None;
  c_free_cancellation := None; c_no_prepayment := None; c_text := None;
  c_sustainability := None; c_distance := None
|}.

(** A page that shows [n] full cards in every session; "load more" is
    in place and adds nothing. *)
Definition steady (n : nat) : world :=
  mkWorld (repeat full_card n) n 0 true true false [].

(** Sessions that show, one after the other, the numbers of cards in [ns]. *)
Definition sessions (ns : list nat) : world :=
  mkWorld (repeat full_card (list_max ns)) 0 0 true true false ns.

(** The calendar does not take the click on a date. *)
Definition dead_calendar (n : nat) : world :=
  mkWorld (repeat full_card n) n 0 true false false [].

End Site.

(** * Properties *)

Local Open Scope list_scope.

Example strftime_new_year : Date.strftime_d_B_Y 738886 = "1 January 2024".
Proof. reflexivity. Qed.
Example strftime_leap_day : Date.strftime_d_B_Y 738945 = "29 February 2024".
Proof. reflexivity. Qed.
Example strftime_year_end : Date.strftime_Ymd 739251 = "20241231".
Proof. reflexivity. Qed.
Example strftime_max : Date.strftime_d_B_Y Date.MAXORDINAL = "31 December 9999".
Proof. reflexivity. Qed.
Example strftime_min : Date.strftime_Ymd 1 = "10101".
Proof. reflexivity. Qed.

Example strip_ex : Text.strip "  The Plaza  " = "The Plaza".
Proof. reflexivity. Qed.
Example token_ex : Text.first_token "4 out of 5" = Some "4".
Proof. reflexivity. Qed.
Example token_blank : Text.first_token "   " = None.
Proof. reflexivity. Qed.
Example int_ex : Text.py_int " -1_000 " = Some (-1000).
Proof. reflexivity. Qed.
Example int_bad : Text.py_int "4-star" = None.
Proof. reflexivity. Qed.
Example int_empty : Text.py_int EmptyString = None.
Proof. reflexivity. Qed.
Example first_decimal_ex : Text.first_decimal "Scored 8.3 Very good 1,200 reviews" = Some "8.3".
Proof. reflexivity. Qed.
Example first_decimal_none : Text.first_decimal "Scored 8" = None.
Proof. reflexivity. Qed.
Example contains_ex : Text.contains "subway access" (Text.lower "Near Subway Access") = true.
Proof. reflexivity. Qed.

Example site_attempt_3 :
  length (match scrape_date_combination_sync Site.site 738886 738887
                  (mkState (Site.steady 3) []) with
          | (Ok l, _) => l | _ => [] end) = 3%nat.
Proof. vm_compute. reflexivity. Qed.

(** ** The partitioner *)

Section Partitioner.

Lemma add_days_ok d n :
  Date.MINORDINAL <= d + n <= Date.MAXORDINAL -> Z.abs n <= Date.MAX_DELTA_DAYS ->
  Date.add_days d n = Ok (d + n).
Proof.
  intros [H1 H2] H3. unfold Date.add_days.
  apply Z.leb_le in H1, H2, H3. rewrite H1, H2, H3. reflexivity.
Qed.

Lemma get_dates_stays_ok d js acc :
  Forall (fun j => Date.MINORDINAL <= d + j <= Date.MAXORDINAL
                   /\ Z.abs j <= Date.MAX_DELTA_DAYS) js ->
  get_dates_stays d js acc = Ok (acc ++ map (fun j => (d, d + j)) js).
Proof.
  intros H. revert acc.
  induction H as [|j js [Hj1 Hj2] _ IH]; intros acc; simpl.
  - now rewrite app_nil_r.
  - rewrite add_days_ok by assumption. simpl.
    rewrite IH, <- app_assoc. reflexivity.
Qed.

Lemma py_range_bounds lo hi j : In j (py_range lo hi) -> lo <= j < hi.
Proof.
  unfold py_range. rewrite in_map_iff. intros (k & <- & Hk).
  apply in_seq in Hk. lia.
Qed.

Lemma get_dates_loop_ok los e :
  1 <= los -> e + los <= Date.MAXORDINAL ->
  forall (days : nat) (d : Z) (fuel : nat) (acc : list task),
    1 <= d -> Z.of_nat days = e - d + 1 -> (days < fuel)%nat ->
    get_dates_loop fuel d e los acc = Ok (acc ++ generateTasks_spec d days los).
Proof.
  intros Hlos Hmax. unfold Date.MAXORDINAL in Hmax.
  induction days as [|days IH]; intros d fuel acc Hd Hdays Hfuel;
    (destruct fuel as [|fuel]; [lia|]); simpl.
  - replace (d <=? e) with false by (symmetry; apply Z.leb_gt; lia).
    now rewrite app_nil_r.
  - replace (d <=? e) with true by (symmetry; apply Z.leb_le; lia).
    rewrite get_dates_stays_ok.
    + simpl. rewrite add_days_ok.
      * simpl. rewrite IH by lia. rewrite <- app_assoc. reflexivity.
      * unfold Date.MINORDINAL, Date.MAXORDINAL. lia.
      * unfold Date.MAX_DELTA_DAYS. lia.
    + apply List.Forall_forall. intros j Hj. apply py_range_bounds in Hj.
      unfold Date.MINORDINAL, Date.MAXORDINAL, Date.MAX_DELTA_DAYS. lia.
Qed.

Lemma stays_of_length los d : length (stays_of los d) = Z.to_nat los.
Proof.
  unfold stays_of, py_range. rewrite !length_map, length_seq. f_equal. lia.
Qed.

Lemma stays_of_lookup los d (i : nat) :
  (i < Z.to_nat los)%nat ->
  stays_of los d !! i = Some (d, d + 1 + Z.of_nat i).
Proof.
  intros Hi. unfold stays_of, py_range.
  rewrite !list_lookup_fmap, lookup_seq_lt by lia.
  simpl. do 2 f_equal. lia.
Qed.

Lemma generateTasks_spec_length d days los :
  length (generateTasks_spec d days los) = (days * Z.to_nat los)%nat.
Proof.
  revert d. induction days as [|days IH]; intros d; simpl; [reflexivity|].
  rewrite length_app, stays_of_length, IH. reflexivity.
Qed.

(** The task at position [i]: day [i / los] of the sweep, stay of
    [1 + i mod los] nights. *)
Lemma generateTasks_spec_lookup los :
  1 <= los ->
  forall (days : nat) (d : Z) (i : nat),
    (i < days * Z.to_nat los)%nat ->
    generateTasks_spec d days los !! i =
      Some (d + Z.of_nat i / los, d + Z.of_nat i / los + 1 + Z.of_nat i mod los).
Proof.
  intros Hlos. induction days as [|days IH]; intros d i Hi; simpl in *; [lia|].
  destruct (decide (i < Z.to_nat los)%nat) as [Hlt|Hge].
  - rewrite lookup_app_l by (rewrite stays_of_length; lia).
    rewrite stays_of_lookup by lia.
    rewrite Z.div_small, Z.mod_small by lia.
    do 2 f_equal; lia.
  - rewrite lookup_app_r by (rewrite stays_of_length; lia).
    rewrite stays_of_length, IH by lia.
    replace (Z.of_nat i) with (Z.of_nat (i - Z.to_nat los) + 1 * los) by lia.
    rewrite Z.div_add, Z.mod_add by lia.
    do 2 f_equal; lia.
Qed.

Lemma generateTasks_spec_lookup_Some los days d (i : nat) t :
  1 <= los -> generateTasks_spec d days los !! i = Some t ->
  t = (d + Z.of_nat i / los, d + Z.of_nat i / los + 1 + Z.of_nat i mod los).
Proof.
  intros Hlos Ht.
  assert (Hi : (i < days * Z.to_nat los)%nat).
  { rewrite <- generateTasks_spec_length with (d := d).
    apply lookup_lt_is_Some. eauto. }
  rewrite generateTasks_spec_lookup in Ht by assumption. congruence.
Qed.

Lemma generateTasks_spec_stays los days d :
  1 <= los ->
  Forall (fun t : task => 1 <= t.2 - t.1 <= los) (generateTasks_spec d days los).
Proof.
  intros Hlos. apply Forall_lookup. intros i t Ht.
  apply generateTasks_spec_lookup_Some in Ht; [|assumption]. subst t. simpl.
  pose proof (Z.mod_pos_bound (Z.of_nat i) los). lia.
Qed.

Lemma generateTasks_spec_ascending los days d :
  1 <= los -> ascending (generateTasks_spec d days los).
Proof.
  intros Hlos i j a b Hij Ha Hb.
  apply generateTasks_spec_lookup_Some in Ha; [|assumption].
  apply generateTasks_spec_lookup_Some in Hb; [|assumption].
  subst a b. unfold task_lt. simpl.
  assert (Hle : Z.of_nat i / los <= Z.of_nat j / los)
    by (apply Z.div_le_mono; lia).
  pose proof (Z.div_mod (Z.of_nat i) los).
  pose proof (Z.div_mod (Z.of_nat j) los).
  destruct (decide (Z.of_nat i / los = Z.of_nat j / los)) as [Heq|Hne].
  - right. rewrite Heq in *. lia.
  - left. lia.
Qed.

(** C2. For dates [start_date <= end_date] and [los >= 1] whose
    check-outs are still dates (the last one, [end_date + los], is at
    most 9999-12-31), [get_dates] answers exactly
    [(end_date - start_date + 1) * los] pairs, each with
    [1 <= checkout - checkin <= los], in ascending order of check-in
    day and then of stay length; and for [start_date > end_date] it
    answers the empty list, whatever the other arguments, without
    raising. *)
Theorem get_dates_partition (today start_date end_date los : Z) :
  (Date.valid start_date -> Date.valid end_date ->
   start_date <= end_date -> 1 <= los -> end_date + los <= Date.MAXORDINAL ->
   exists l,
     get_dates today (Some start_date) (Some end_date) los = Ok l
     /\ Z.of_nat (length l) = (end_date - start_date + 1) * los
     /\ Forall (fun t : task => 1 <= t.2 - t.1 <= los) l
     /\ ascending l)
  /\ (end_date < start_date ->
      get_dates today (Some start_date) (Some end_date) los = Ok []).
Proof.
  split.
  - intros [Hs _] _ Hse Hlos Hmax. unfold Date.MINORDINAL in Hs.
    exists (generateTasks_spec start_date (Z.to_nat (end_date - start_date + 1)) los).
    split; [|split; [|split]].
    + unfold get_dates. cbn [obind].
      rewrite get_dates_loop_ok with (days := Z.to_nat (end_date - start_date + 1));
        try assumption; try lia. reflexivity.
    + rewrite generateTasks_spec_length. lia.
    + now apply generateTasks_spec_stays.
    + now apply generateTasks_spec_ascending.
  - intros Hlt. unfold get_dates. cbn [obind get_dates_loop].
    replace (start_date <=? end_date) with false; [reflexivity|].
    symmetry. apply Z.leb_gt. lia.
Qed.

Lemma get_dates_partition_witness :
  exists l,
    get_dates 738000 (Some 738886) (Some 738887) 2 = Ok l
    /\ Z.of_nat (length l) = (738887 - 738886 + 1) * 2
    /\ Forall (fun t : task => 1 <= t.2 - t.1 <= 2) l
    /\ ascending l.
Proof.
  apply (proj1 (get_dates_partition 738000 738886 738887 2));
    unfold Date.valid, Date.MINORDINAL, Date.MAXORDINAL; lia.
Defined.

End Partitioner.

Example get_dates_end_to_end :
  get_dates 1 (Some 738886) (Some 738886) 2
  = Ok [(738886, 738887); (738886, 738888)].
Proof. reflexivity. Qed.

Example get_dates_empty_range : get_dates 1 (Some 9) (Some 4) 3 = Ok [].
Proof. reflexivity. Qed.

Example get_dates_overflow :
  get_dates 1 (Some Date.MAXORDINAL) (Some Date.MAXORDINAL) 1 = Raise OverflowError.
Proof. reflexivity. Qed.

(** ** The monad *)

Section MonadFacts.

Context {W : Type}.

Lemma bind_Ok_inv {A B} (c : M W A) (k : A -> M W B) s b s' :
  bind c k s = (Ok b, s') ->
  exists a s1, c s = (Ok a, s1) /\ k a s1 = (Ok b, s').
Proof.
  unfold bind. destruct (c s) as [[a|e|] s1]; intros H; try discriminate.
  eauto.
Qed.

Lemma try_finally_Ok_inv {A} (c : M W A) (f : M W unit) s a s' :
  try_finally c f s = (Ok a, s') ->
  exists s1, c s = (Ok a, s1) /\ f s1 = (Ok tt, s').
Proof.
  unfold try_finally, bind, ret, raise.
  destruct (c s) as [[a0|e|] s1]; try discriminate;
    destruct (f s1) as [[[]|e'|] s2] eqn:Ef; intros H; inversion H; subst; eauto.
Qed.

Lemma ends_ret {A} (a : A) : ends (ret a : M W A).
Proof. intros s. discriminate. Qed.

Lemma ends_raise {A} e : ends (raise e : M W A).
Proof. intros s. discriminate. Qed.

Lemma ends_of_option {A} e (o : option A) : ends (of_option e o : M W A).
Proof. destruct o; intros s; discriminate. Qed.

Lemma ends_bind {A B} (c : M W A) (k : A -> M W B) :
  ends c -> (forall a, ends (k a)) -> ends (bind c k).
Proof.
  intros Hc Hk s. unfold bind. specialize (Hc s).
  destruct (c s) as [[a|e|] s1]; simpl in *; try discriminate; [apply Hk|congruence].
Qed.

Lemma ends_try_except {A} (c : M W A) handles h :
  ends c -> (forall e, ends (h e)) -> ends (try_except c handles h).
Proof.
  intros Hc Hh s. unfold try_except. specialize (Hc s).
  destruct (c s) as [[a|e|] s1]; simpl in *; try discriminate; [|congruence].
  destruct (handles e); [apply Hh|discriminate].
Qed.

Lemma returns_ends {A} (c : M W A) : returns c -> ends c.
Proof. intros H s. destruct (H s) as (a & s' & ->). discriminate. Qed.

(** A [try] whose [except Exception] clause answers a constant never
    lets an exception out. *)
Lemma returns_try_except_const {A} (c : M W A) (v : A) :
  ends c -> returns (try_except c any_Exception (fun _ => ret v)).
Proof.
  intros Hc s. unfold try_except, any_Exception, ret. specialize (Hc s).
  destruct (c s) as [[a|e|] s1]; simpl in *; eauto. congruence.
Qed.

Lemma returns_bind {A B} (c : M W A) (k : A -> M W B) :
  returns c -> (forall a, returns (k a)) -> returns (bind c k).
Proof.
  intros Hc Hk s. unfold bind. destruct (Hc s) as (a & s1 & ->). apply Hk.
Qed.

Lemma returns_ret {A} (a : A) : returns (ret a : M W A).
Proof. intros s. unfold ret. eauto. Qed.

End MonadFacts.

Create HintDb scraper.
#[export] Hint Resolve ends_ret ends_raise ends_of_option ends_bind ends_try_except
  returns_try_except_const returns_bind returns_ret : scraper.

(** ** The driver calls *)

Section DriverFacts.

Context {W : Type} (D : driver W).

Lemma ends_call a : ends (call D a).
Proof.
  intros s. unfold call. destruct (drv_do D a (env s)) as [[[]|e] w]; discriminate.
Qed.

Lemma ends_is_visible l : ends (is_visible D l).
Proof.
  intros s. unfold is_visible.
  destruct (drv_is_visible D l (env s)) as [[b|e] w]; discriminate.
Qed.

Lemma ends_count l : ends (count D l).
Proof.
  intros s. unfold count. destruct (drv_count D l (env s)) as [[b|e] w]; discriminate.
Qed.

Lemma ends_inner_text l t : ends (inner_text D l t).
Proof.
  intros s. unfold inner_text.
  destruct (drv_inner_text D l t (env s)) as [[b|e] w]; discriminate.
Qed.

Lemma ends_get_attribute l n : ends (get_attribute D l n).
Proof.
  intros s. unfold get_attribute.
  destruct (drv_get_attribute D l n (env s)) as [[b|e] w]; discriminate.
Qed.

Lemma returns_sleep q : returns (sleep D q).
Proof. intros s. unfold sleep. eauto. Qed.

Lemma returns_random_uniform lo hi : returns (random_uniform D lo hi).
Proof.
  intros s. unfold random_uniform. destruct (drv_uniform D lo hi (env s)). eauto.
Qed.

End DriverFacts.

#[export] Hint Resolve ends_call ends_is_visible ends_count ends_inner_text
  ends_get_attribute returns_sleep returns_random_uniform returns_ends : scraper.

(** ** The record extractor *)

Section ExtractorFacts.

Context {W : Type} (D : driver W).

Lemma bind_Ok {A B} (c : M W A) (k : A -> M W B) s a s1 :
  c s = (Ok a, s1) -> bind c k s = k a s1.
Proof. intros H. unfold bind. now rewrite H. Qed.

Lemma returns_field_hotel_name card : returns (field_hotel_name D card).
Proof. unfold field_hotel_name. auto 10 with scraper. Qed.

Lemma returns_field_star_rating card : returns (field_star_rating D card).
Proof.
  unfold field_star_rating. apply returns_try_except_const, ends_bind.
  - auto with scraper.
  - intros [[|c t]|]; auto 10 with scraper.
Qed.

Lemma returns_field_rating_score card : returns (field_rating_score D card).
Proof.
  unfold field_rating_score. apply returns_try_except_const, ends_bind.
  - auto with scraper.
  - intros t. destruct (Text.first_decimal t); auto with scraper.
Qed.

Lemma returns_field_location_score card : returns (field_location_score D card).
Proof.
  unfold field_location_score. apply returns_try_except_const, ends_bind.
  - auto with scraper.
  - intros o. apply ends_bind; [auto with scraper|].
    intros t. destruct (Text.search_scored t); auto with scraper.
Qed.

Lemma returns_field_review_amount card : returns (field_review_amount D card).
Proof. unfold field_review_amount. auto 10 with scraper. Qed.

Lemma returns_field_bed_info card : returns (field_bed_info D card).
Proof. unfold field_bed_info. auto 10 with scraper. Qed.

Lemma returns_field_price card : returns (field_price D card).
Proof. unfold field_price. auto 10 with scraper. Qed.

Lemma returns_field_breakfast_included card : returns (field_breakfast_included D card).
Proof. unfold field_breakfast_included. auto 10 with scraper. Qed.

Lemma returns_field_free_cancellation card : returns (field_free_cancellation D card).
Proof. unfold field_free_cancellation. auto 10 with scraper. Qed.

Lemma returns_field_no_prepayment_needed card :
  returns (field_no_prepayment_needed D card).
Proof. unfold field_no_prepayment_needed. auto 10 with scraper. Qed.

Lemma returns_field_centrally_located card : returns (field_centrally_located D card).
Proof. unfold field_centrally_located. auto 10 with scraper. Qed.

Lemma returns_field_sustainability_cert card :
  returns (field_sustainability_cert D card).
Proof. unfold field_sustainability_cert. auto 10 with scraper. Qed.

Lemma returns_field_distance_from_downtown card :
  returns (field_distance_from_downtown D card).
Proof. unfold field_distance_from_downtown. auto 10 with scraper. Qed.

Ltac run_field L :=
  match goal with
  | |- context [bind (?f D ?card) ?k ?s0] =>
      let E := fresh "E" in
      destruct (L card s0) as (? & ? & E);
      rewrite (bind_Ok (f D card) k s0 _ _ E); clear E
  end.

(** One card always gives one record, with the thirteen fields. *)
Lemma extract_card_returns card s :
  exists d s', extract_card D card s = (Ok d, s') /\ keys d = hotel_fields.
Proof.
  unfold extract_card.
  run_field returns_field_hotel_name.
  run_field returns_field_star_rating.
  run_field returns_field_rating_score.
  run_field returns_field_location_score.
  run_field returns_field_review_amount.
  run_field returns_field_bed_info.
  run_field returns_field_price.
  run_field returns_field_breakfast_included.
  run_field returns_field_free_cancellation.
  run_field returns_field_no_prepayment_needed.
  run_field returns_field_centrally_located.
  run_field returns_field_sustainability_cert.
  run_field returns_field_distance_from_downtown.
  unfold ret. eexists _, _. split; reflexivity.
Qed.

Lemma extract_card_keys card s d s' :
  extract_card D card s = (Ok d, s') -> keys d = hotel_fields.
Proof.
  intros H. destruct (extract_card_returns card s) as (d0 & s0 & E & K).
  congruence.
Qed.

Lemma extract_cards_ok hotel_cards (k : nat) :
  forall (i : nat) (acc : list pydict) (s : state W),
  exists l s',
    extract_cards D hotel_cards (seq i k) acc s = (Ok (acc ++ l), s')
    /\ length l = k
    /\ extracted_in_order D hotel_cards i s l s'
    /\ Forall (fun d => keys d = hotel_fields) l.
Proof.
  induction k as [|k IH]; intros i acc s; simpl.
  - exists [], s. rewrite app_nil_r. repeat split; constructor.
  - destruct (extract_card_returns (Nth hotel_cards i) s) as (d & s1 & E & K).
    rewrite (bind_Ok _ _ _ _ _ E).
    destruct (IH (S i) (acc ++ [d]) s1) as (l & s2 & E2 & Hlen & Hord & Hk).
    exists (d :: l), s2. rewrite E2, <- app_assoc. simpl.
    repeat split; [lia|econstructor; eassumption|constructor; assumption].
Qed.



Lemma extract_hotel_data_ok s n s1 :
  count D property_cards s = (Ok n, s1) ->
  exists l s',
    extract_hotel_data D s = (Ok l, s')
    /\ length l = Nat.min n 100
    /\ extracted_in_order D property_cards 0 s1 l s'
    /\ Forall (fun d => keys d = hotel_fields) l.
Proof.
  intros Hn. unfold extract_hotel_data. rewrite (bind_Ok _ _ _ _ _ Hn).
  destruct (extract_cards_ok property_cards (Nat.min n 100) 0 [] s1)
    as (l & s' & E & Hlen & Hord & Hk).
  exists l, s'. auto.
Qed.

Lemma extract_hotel_data_keys s l s' :
  extract_hotel_data D s = (Ok l, s') ->
  Forall (fun d => keys d = hotel_fields) l.
Proof.
  intros H. unfold extract_hotel_data in H.
  apply bind_Ok_inv in H. destruct H as (n & s1 & Hn & H).
  destruct (extract_hotel_data_ok s n s1 Hn) as (l0 & s0 & E & _ & _ & Hk).
  unfold extract_hotel_data in E. rewrite (bind_Ok _ _ _ _ _ Hn) in E.
  congruence.
Qed.

End ExtractorFacts.






Example review_amount_digits : Text.remove_non_digits "1,234 reviews" = "1234".
Proof. reflexivity. Qed.

Example location_score_match :
  Text.search_scored "Location: Scored   9.25 out of 10" = Some "9.25".
Proof. reflexivity. Qed.

Example location_score_no_match : Text.search_scored "Scored high, 8.3" = None.
Proof. reflexivity. Qed.

(** ** The task executor *)

Section ExecutorFacts.

Context {W : Type} (D : driver W).



Lemma ends_ensure_date_visible_loop date_str max_attempts :
  forall fuel attempts,
    (Z.to_nat (max_attempts - attempts) < fuel)%nat ->
    ends (ensure_date_visible_loop D fuel date_str max_attempts attempts).
Proof.
  induction fuel as [|fuel IH]; intros attempts Hfuel; [lia|]. simpl.
  apply ends_bind; [auto with scraper|]. intros visible.
  destruct (negb visible && (attempts <? max_attempts)) eqn:E; [|auto with scraper].
  apply andb_true_iff in E. destruct E as [_ E]. apply Z.ltb_lt in E.
  apply ends_bind.
  - unfold fallback_click. auto 10 with scraper.
  - intros _. apply IH. lia.
Qed.

Lemma ends_ensure_date_visible date_str max_attempts :
  ends (ensure_date_visible D date_str max_attempts).
Proof.
  unfold ensure_date_visible. apply ends_bind; [|auto with scraper].
  apply ends_ensure_date_visible_loop. lia.
Qed.

Lemma ends_bind_post {A B} (c : M W A) (k : A -> M W B) (P : A -> Prop) :
  ends c -> post c P -> (forall a, P a -> ends (k a)) -> ends (bind c k).
Proof.
  intros Hc Hp Hk s. unfold bind. specialize (Hc s). specialize (Hp s).
  destruct (c s) as [[a|e|] s1]; simpl in *; try discriminate; [|congruence].
  apply Hk. eapply Hp. reflexivity.
Qed.

Lemma try_except_Ok_inv {A} (c : M W A) handles h s a s' :
  try_except c handles h s = (Ok a, s') ->
  c s = (Ok a, s')
  \/ exists e s1, c s = (Raise e, s1) /\ handles e = true /\ h e s1 = (Ok a, s').
Proof.
  unfold try_except. destruct (c s) as [[a0|e|] s1]; intros H; [auto| |discriminate].
  destruct (handles e) eqn:E; [eauto 6|discriminate].
Qed.

Lemma ends_for_each {A} (xs : list A) (body : A -> M W unit) :
  (forall x, ends (body x)) -> ends (for_each xs body).
Proof.
  intros Hb. induction xs as [|x xs IH]; simpl; auto with scraper.
Qed.

Lemma ends_fallback_click x y : ends (fallback_click D x y).
Proof. unfold fallback_click. auto with scraper. Qed.

Lemma ends_full_scroll_bottom attempts pause : ends (full_scroll_bottom D attempts pause).
Proof. unfold full_scroll_bottom. apply ends_for_each. auto 10 with scraper. Qed.

Lemma ends_human_like_scroll_loop total_scroll step max_delay :
  0 < step ->
  forall fuel scrolled,
    (Z.to_nat (total_scroll - scrolled) < fuel)%nat ->
    ends (human_like_scroll_loop D fuel scrolled total_scroll step max_delay).
Proof.
  intros Hstep. induction fuel as [|fuel IH]; intros scrolled Hfuel; [lia|]. simpl.
  destruct (scrolled <? total_scroll) eqn:E; [|auto with scraper].
  apply Z.ltb_lt in E.
  apply ends_bind; [auto with scraper|]. intros _.
  apply ends_bind; [auto with scraper|]. intros pause.
  apply ends_bind; [auto with scraper|]. intros _.
  apply IH. lia.
Qed.

Lemma ends_human_like_scroll total_scroll step max_delay :
  0 < step -> ends (human_like_scroll D total_scroll step max_delay).
Proof.
  intros Hstep. unfold human_like_scroll. apply ends_bind; [|auto with scraper].
  apply ends_human_like_scroll_loop; [assumption|lia].
Qed.

Lemma ends_dismiss_genius_popup_if_present timeout :
  ends (dismiss_genius_popup_if_present D timeout).
Proof.
  unfold dismiss_genius_popup_if_present. apply ends_try_except; [auto with scraper|].
  intros [m|m|c m]; auto using ends_fallback_click with scraper.
  destruct (Text.contains _ _); auto using ends_fallback_click with scraper.
Qed.

Lemma ends_load_round min_count clicks : ends (load_round D min_count clicks).
Proof.
  unfold load_round.
  apply ends_bind; [apply ends_full_scroll_bottom|]. intros _.
  apply ends_bind; [apply ends_human_like_scroll; lia|]. intros _.
  apply ends_bind.
  { apply ends_try_except; [auto with scraper|]. intros _.
    apply ends_bind; [apply ends_dismiss_genius_popup_if_present|]. intros _.
    apply ends_bind; [auto with scraper|]. intros _.
    apply ends_bind; [apply ends_full_scroll_bottom|]. intros _.
    auto 10 with scraper. }
  intros [|]; [|auto with scraper].
  apply ends_bind; [auto with scraper|]. intros current_count.
  destruct (min_count <=? Z.of_nat current_count); [auto with scraper|].
  apply ends_bind.
  { apply ends_try_except; [auto with scraper|]. intros _.
    apply ends_bind; [apply ends_fallback_click|]. auto with scraper. }
  intros [|]; auto 10 with scraper.
Qed.

(** A round that does not break uses at least one unit of the budget. *)
Lemma load_round_progress min_count clicks :
  post (load_round D min_count clicks)
    (fun r => match r with Break => True | Next clicks' => clicks < clicks' end).
Proof.
  intros s r s' H. unfold load_round in H.
  apply bind_Ok_inv in H. destruct H as (? & ? & _ & H).
  apply bind_Ok_inv in H. destruct H as (? & ? & _ & H).
  apply bind_Ok_inv in H. destruct H as ([|] & ? & _ & H).
  - apply bind_Ok_inv in H. destruct H as (current_count & ? & _ & H).
    destruct (min_count <=? Z.of_nat current_count).
    + inversion H. exact I.
    + apply bind_Ok_inv in H. destruct H as ([|] & ? & _ & H); cbv zeta in H.
      * apply try_except_Ok_inv in H. destruct H as [H|(e & s1 & _ & _ & H)].
        -- apply bind_Ok_inv in H. destruct H as (? & ? & _ & H).
           inversion H. lia.
        -- inversion H. lia.
      * inversion H. lia.
  - inversion H. lia.
Qed.

Lemma ends_load_hotel_cards_loop min_count max_clicks :
  forall fuel clicks rounds,
    (Z.to_nat (max_clicks - clicks) < fuel)%nat ->
    ends (load_hotel_cards_loop D fuel min_count max_clicks clicks rounds).
Proof.
  induction fuel as [|fuel IH]; intros clicks rounds Hfuel; [lia|]. simpl.
  destruct (clicks <? max_clicks) eqn:E; [|auto with scraper].
  apply Z.ltb_lt in E.
  eapply ends_bind_post; [apply ends_load_round|apply load_round_progress|].
  intros [|clicks'] Hr; [auto with scraper|]. apply IH. lia.
Qed.

Lemma ends_load_hotel_cards min_count max_clicks :
  ends (load_hotel_cards D min_count max_clicks).
Proof.
  unfold load_hotel_cards, load_hotel_cards_rounds.
  apply ends_bind; [|auto with scraper].
  apply ends_bind; [apply ends_load_hotel_cards_loop; lia|]. intros rounds.
  apply ends_bind; [apply ends_full_scroll_bottom|]. intros _.
  auto 10 with scraper.
Qed.

Lemma ends_extract_hotel_data : ends (extract_hotel_data D).
Proof.
  intros s. unfold extract_hotel_data, bind.
  pose proof (ends_count D property_cards s) as Hc.
  destruct (count D property_cards s) as [[n|e|] s1] eqn:E; simpl in Hc;
    [|discriminate|congruence].
  destruct (extract_hotel_data_ok D s n s1 E) as (l & s' & H & _).
  unfold extract_hotel_data in H. rewrite (bind_Ok _ _ _ _ _ E) in H.
  rewrite H. discriminate.
Qed.




Lemma retry_accept fuel checkin checkout s hotels s1 :
  scrape_date_combination_sync D checkin checkout s = (Ok hotels, s1) ->
  (100 <= length hotels)%nat ->
  scrape_date_combination_sync_retry D (S fuel) checkin checkout s = (Ok hotels, s1).
Proof.
  intros E Hlen. cbn [scrape_date_combination_sync_retry].
  rewrite (bind_Ok _ _ _ _ _ E).
  apply Nat.leb_le in Hlen. rewrite Hlen. reflexivity.
Qed.

Lemma retry_again fuel checkin checkout s hotels s1 :
  scrape_date_combination_sync D checkin checkout s = (Ok hotels, s1) ->
  (length hotels < 100)%nat ->
  scrape_date_combination_sync_retry D (S fuel) checkin checkout s
  = scrape_date_combination_sync_retry D fuel checkin checkout (snd (sleep D 2 s1)).
Proof.
  intros E Hlen. cbn [scrape_date_combination_sync_retry].
  rewrite (bind_Ok _ _ _ _ _ E).
  apply Nat.leb_gt in Hlen. rewrite Hlen. reflexivity.
Qed.


(** What the wrapper hands over is an attempt's answer of 100 records
    or more. *)
Lemma retry_Ok_inv checkin checkout :
  forall fuel s hotels s',
    scrape_date_combination_sync_retry D fuel checkin checkout s = (Ok hotels, s') ->
    (100 <= length hotels)%nat
    /\ exists s0, scrape_date_combination_sync D checkin checkout s0 = (Ok hotels, s').
Proof.
  induction fuel as [|fuel IH]; intros s hotels s' H;
    cbn [scrape_date_combination_sync_retry] in H; [discriminate|].
  apply bind_Ok_inv in H. destruct H as (hs & s1 & E & H).
  destruct (100 <=? length hs)%nat eqn:Hlen.
  - inversion H; subst. apply Nat.leb_le in Hlen. eauto.
  - apply bind_Ok_inv in H. destruct H as ([] & s2 & _ & H). eapply IH, H.
Qed.

Lemma keys_dict_set k v d :
  keys (dict_set k v d)
  = if existsb (String.eqb k) (keys d) then keys d else keys d ++ [k].
Proof.
  unfold keys. induction d as [|[k' v'] d IH]; simpl; [reflexivity|].
  destruct (String.eqb k k') eqn:E; simpl.
  - apply String.eqb_eq in E. now subst.
  - rewrite IH. now destruct (existsb (String.eqb k) (map fst d)).
Qed.

Lemma attempt_keys checkin checkout s hotels s' :
  scrape_date_combination_sync D checkin checkout s = (Ok hotels, s') ->
  Forall (fun h => keys h = csv_schema) hotels.
Proof.
  intros H. unfold scrape_date_combination_sync in H.
  apply bind_Ok_inv in H. destruct H as (? & ? & _ & H).
  apply try_finally_Ok_inv in H. destruct H as (? & H & _).
  repeat (apply bind_Ok_inv in H;
          let E := fresh "E" in destruct H as (? & ? & E & H);
          try (apply extract_hotel_data_keys in E); cbv beta zeta in H).
  unfold ret in H. inversion H; subst. clear H.
  match goal with K : Forall _ _ |- _ => induction K as [|d l Kd _ IH] end;
    simpl; constructor; [|assumption].
  rewrite !keys_dict_set, Kd. reflexivity.
Qed.

Lemma filter_known (sch l : list string) :
  (forall k, In k l -> existsb (String.eqb k) sch = true) ->
  List.filter (fun k => negb (existsb (String.eqb k) sch)) l = [].
Proof.
  induction l as [|k l IH]; intros Hall; simpl; [reflexivity|].
  rewrite Hall by now left. simpl. apply IH. intros k' Hk'. apply Hall. now right.
Qed.

Lemma columns_uniform (sch : list string) :
  forall data,
    Forall (fun h => keys h = sch) data ->
    fold_left
      (fun cols d =>
         cols ++ List.filter (fun k => negb (existsb (String.eqb k) cols)) (keys d))
      data sch = sch.
Proof.
  intros data H. induction H as [|d data Hd _ IH]; simpl; [reflexivity|].
  rewrite Hd, filter_known, app_nil_r; [assumption|].
  intros k Hk. apply existsb_exists. exists k. split; [assumption|].
  apply String.eqb_refl.
Qed.

Lemma DataFrame_columns_uniform (sch : list string) data :
  data <> [] -> Forall (fun h => keys h = sch) data -> DataFrame_columns data = sch.
Proof.
  intros Hne H. destruct H as [|d data Hd H]; [congruence|].
  assert (Hf : forall l : list string,
             List.filter (fun k => negb (existsb (String.eqb k) [])) l = l)
    by (induction l as [|k l IHl]; simpl in *; congruence).
  unfold DataFrame_columns. cbn [fold_left]. rewrite Hf, Hd. cbn [app].
  now apply columns_uniform.
Qed.

End ExecutorFacts.

Ltac evaluate c E :=
  let v := eval vm_compute in c in
  assert (E : c = v) by (vm_compute; reflexivity).

(** C1. The retry wrapper hands over an attempt's records exactly when
    the attempt came back with at least 100 of them, and then makes no
    further attempt; an attempt with fewer is dropped: the wrapper
    sleeps 2 seconds and runs the whole attempt again, and what it
    finally answers never holds fewer than 100 records. There is no
    bound on the attempts: after any number [k] of short attempts the
    wrapper is still at work, and it accepts the first attempt that
    reaches 100. *)
Theorem retry_until_100 {W : Type} (D : driver W) (checkin checkout : Z) :
  (forall fuel s hotels s1,
     scrape_date_combination_sync D checkin checkout s = (Ok hotels, s1) ->
     ((100 <= length hotels)%nat ->
      scrape_date_combination_sync_retry D (S fuel) checkin checkout s = (Ok hotels, s1))
     /\ ((length hotels < 100)%nat ->
         scrape_date_combination_sync_retry D (S fuel) checkin checkout s
         = scrape_date_combination_sync_retry D fuel checkin checkout (snd (sleep D 2 s1))
         /\ snd (sleep D 2 s1)
            = mkState (drv_sleep D 2 (env s1)) (trace s1 ++ [ESleep 2])))
  /\ (forall fuel s hotels s',
        scrape_date_combination_sync_retry D fuel checkin checkout s = (Ok hotels, s') ->
        (100 <= length hotels)%nat)
  /\ (forall k s s2,
        short_attempts D checkin checkout k s s2 ->
        (forall fuel, (fuel <= k)%nat ->
           fst (scrape_date_combination_sync_retry D fuel checkin checkout s) = Spin)
        /\ (forall hotels s3,
              scrape_date_combination_sync D checkin checkout s2 = (Ok hotels, s3) ->
              (100 <= length hotels)%nat ->
              forall fuel, (k < fuel)%nat ->
                scrape_date_combination_sync_retry D fuel checkin checkout s
                = (Ok hotels, s3))).
Proof.
  split; [|split].
  - intros fuel s hotels s1 E. split; intros Hlen.
    + now apply retry_accept.
    + split; [now apply retry_again with (hotels := hotels)|reflexivity].
  - intros fuel s hotels s' H. now apply retry_Ok_inv in H.
  - intros k s s2 Hshort.
    induction Hshort as [s|k s hotels s1 s2 E Hlen _ [IH1 IH2]]; split.
    + intros fuel Hfuel. assert (fuel = O) by lia. subst. reflexivity.
    + intros hotels s3 E Hlen fuel Hfuel. destruct fuel as [|fuel]; [lia|].
      now apply retry_accept.
    + intros [|fuel] Hfuel; [reflexivity|].
      rewrite (retry_again D fuel _ _ _ _ _ E Hlen). apply IH1. lia.
    + intros hotels' s3 E' Hlen' [|fuel] Hfuel; [lia|].
      rewrite (retry_again D fuel _ _ _ _ _ E Hlen). apply IH2; [assumption..|lia].
Qed.

Lemma retry_until_100_witness :
  exists hotels s',
    scrape_date_combination_sync_retry Site.site 2 738886 738887
      (mkState (Site.sessions [99; 100]%nat) []) = (Ok hotels, s')
    /\ length hotels = 100%nat.
Proof.
  pose (s0 := mkState (Site.sessions [99; 100]%nat) []).
  evaluate (scrape_date_combination_sync Site.site 738886 738887 s0) E1.
  match type of E1 with _ = (Ok ?h1, ?s1) =>
    evaluate (scrape_date_combination_sync Site.site 738886 738887
                (snd (sleep Site.site 2 s1))) E2;
    assert (Hshort : short_attempts Site.site 738886 738887 1 s0
                       (snd (sleep Site.site 2 s1)))
      by (apply (short_more Site.site 738886 738887 0 s0 h1 s1 _ E1);
          [vm_compute; lia|apply short_none])
  end.
  match type of E2 with _ = (Ok ?h2, ?s3) =>
    exists h2, s3; split; [|reflexivity];
    apply (proj2 (proj2 (proj2 (retry_until_100 Site.site 738886 738887))
                    1%nat s0 _ Hshort) h2 s3 E2);
    [vm_compute; lia|lia]
  end.
Defined.

(** The sessions of a task whose first attempt falls short: each attempt
    starts and stops its own driver and opens its own context. *)
Example retry_sessions :
  List.filter
    (fun e => match e with
              | EDo PlaywrightStart | EDo PlaywrightStop | EDo NewContext => true
              | _ => false
              end)
    (trace (snd (scrape_date_combination_sync_retry Site.site 2 738886 738887
                   (mkState (Site.sessions [99; 100]%nat) []))))
  = [EDo PlaywrightStart; EDo NewContext; EDo PlaywrightStop;
     EDo PlaywrightStart; EDo NewContext; EDo PlaywrightStop].
Proof. vm_compute. reflexivity. Qed.




(** C10. Every record that the retry wrapper hands to the sink has the
    thirteen hotel fields followed by [checkin] and [checkout], in this
    order, so the columns of every batch are these fifteen. *)
Theorem sink_records_schema {W : Type} (D : driver W) (fuel : nat)
    (checkin checkout : Z) (s : state W) (hotels : list pydict) (s' : state W) :
  scrape_date_combination_sync_retry D fuel checkin checkout s = (Ok hotels, s') ->
  Forall (fun h => keys h = csv_schema) hotels
  /\ DataFrame_columns hotels = csv_schema
  /\ length csv_schema = 15%nat.
Proof.
  intros H. apply retry_Ok_inv in H. destruct H as (Hlen & s0 & E).
  apply attempt_keys in E. split; [assumption|]. split; [|reflexivity].
  apply DataFrame_columns_uniform; [|assumption].
  destruct hotels; [simpl in Hlen; lia|discriminate].
Qed.

Lemma sink_records_schema_witness :
  exists hotels s',
    scrape_date_combination_sync_retry Site.site 1 738886 738887
      (mkState (Site.steady 100) []) = (Ok hotels, s')
    /\ Forall (fun h => keys h = csv_schema) hotels
    /\ DataFrame_columns hotels = csv_schema
    /\ length csv_schema = 15%nat.
Proof.
  evaluate (scrape_date_combination_sync_retry Site.site 1 738886 738887
              (mkState (Site.steady 100) [])) E.
  match type of E with _ = (Ok ?h, ?s1) =>
    exists h, s1; split; [exact E|];
    exact (sink_records_schema Site.site 1 738886 738887 _ h s1 E)
  end.
Defined.

(** ** The incremental loader *)

(** C3, against the code. On a page of 25 cards where "load more" is in
    place, takes the click and adds nothing, a round uses two units of
    the budget, one for the click and one more for the time-out of the
    wait, so with a budget of 5 the loader gives up after three rounds,
    not five; it then settles and reads the final number of cards. *)
Theorem load_hotel_cards_round_counts_twice :
  fst (load_round Site.site 100 0 (mkState (Site.steady 25) [])) = Ok (Next 2)
  /\ fst (load_hotel_cards_rounds Site.site 100 5 (mkState (Site.steady 25) []))
     = Ok (property_cards, 25%nat, 3%nat)
  /\ length (List.filter
               (fun e => match e with EDo (Click _) => true | _ => false end)
               (trace (snd (load_hotel_cards Site.site 100 5
                              (mkState (Site.steady 25) [])))))
     = 3%nat.
Proof. repeat split; vm_compute; reflexivity. Qed.

(** A round whose click brings new cards uses one unit: from 25 cards,
    25 more per click, the fourth round finds 100 and stops. *)
Example load_hotel_cards_growing :
  fst (load_hotel_cards_rounds Site.site 100 5
         (mkState (Site.mkWorld (repeat Site.full_card 200) 25 25 true true false []) []))
  = Ok (property_cards, 100%nat, 4%nat).
Proof. vm_compute. reflexivity. Qed.

(** A round without the "load more" control uses one unit: five rounds. *)
Example load_hotel_cards_no_button :
  fst (load_hotel_cards_rounds Site.site 100 5
         (mkState (Site.mkWorld (repeat Site.full_card 30) 30 0 false true false []) []))
  = Ok (property_cards, 30%nat, 5%nat).
Proof. vm_compute. reflexivity. Qed.

(** ** The sweep *)

(** C9, against the code. [scrape_all_dates_sync] does not read its
    first argument: with the defaults of [main] the sweep runs from
    today to thirty days later, both included, which is 31 check-in
    days and 155 tasks whatever [ttt] is, and not the 30 that [main]
    announces. *)
Theorem sweep_ignores_total_start_dates (ttt : Z) :
  exists dates,
    scrape_all_dates_sync_dates ttt 5 None None 738886 = Ok dates
    /\ length (checkin_days dates) = 31%nat
    /\ length dates = 155%nat.
Proof. eexists. split; [reflexivity|]. split; vm_compute; reflexivity. Qed.

(** ** The result sink *)

Section SinkFacts.

Lemma write_to_csv_fresh data (csv_filename : string) (fs : filesystem) :
  fs !! csv_filename = None ->
  write_to_csv data csv_filename fs !! csv_filename
  = Some (Header (DataFrame_columns data) :: DataFrame_rows data).
Proof. intros H. unfold write_to_csv. rewrite H. apply lookup_insert_eq. Qed.

Lemma write_to_csv_existing data (csv_filename : string) (fs : filesystem) lines :
  fs !! csv_filename = Some lines ->
  write_to_csv data csv_filename fs !! csv_filename
  = Some (lines ++ DataFrame_rows data).
Proof. intros H. unfold write_to_csv. rewrite H. apply lookup_insert_eq. Qed.

Lemma write_to_csv_other data (csv_filename other : string) (fs : filesystem) :
  other <> csv_filename ->
  write_to_csv data csv_filename fs !! other = fs !! other.
Proof.
  intros H. unfold write_to_csv.
  destruct (fs !! csv_filename); now apply lookup_insert_ne.
Qed.

Lemma headers_app l1 l2 : headers (l1 ++ l2) = (headers l1 + headers l2)%nat.
Proof. unfold headers. now rewrite List.filter_app, length_app. Qed.

Lemma headers_rows data : headers (DataFrame_rows data) = 0%nat.
Proof.
  unfold DataFrame_rows, headers. cbv zeta.
  generalize (map (fun c => (c, column_dtype data c)) (DataFrame_columns data)) as cols.
  intros cols. induction data as [|d data IH]; simpl; [reflexivity|assumption].
Qed.

Lemma append_all_existing (csv_filename : string) batches :
  forall (fs : filesystem) lines,
    fs !! csv_filename = Some lines ->
    append_all batches csv_filename fs !! csv_filename
    = Some (lines ++ concat (map DataFrame_rows batches)).
Proof.
  induction batches as [|data batches IH]; intros fs lines H; simpl.
  - now rewrite app_nil_r.
  - unfold append_all in *. simpl.
    rewrite (IH _ _ (write_to_csv_existing data _ _ _ H)).
    now rewrite <- app_assoc.
Qed.

Lemma headers_concat_rows batches :
  headers (concat (map DataFrame_rows batches)) = 0%nat.
Proof.
  induction batches as [|data batches IH]; simpl; [reflexivity|].
  now rewrite headers_app, headers_rows, IH.
Qed.

End SinkFacts.



Example sink_two_appends :
  append_all [[[("hotel_name", PStr "A")]; [("hotel_name", PStr "B")]];
              [[("hotel_name", PStr "C")]]] "out.csv" ∅ !! "out.csv"
  = Some [Header ["hotel_name"]; Row [PStr "A"]; Row [PStr "B"]; Row [PStr "C"]].
Proof. reflexivity. Qed.

(** ** The dispatcher *)

Section DispatcherFacts.

Context {W : Type} (D : driver W) (fuel : nat) (site : nat -> W).
Context (dates : list task) (csv_filename : string).

#[local] Abbreviation args_list :=
  (map (fun '(checkin, checkout) => (checkin, checkout, csv_filename)) dates).

Lemma args_list_lookup i args :
  args_list !! i = Some args ->
  exists checkin checkout,
    dates !! i = Some (checkin, checkout) /\ args = (checkin, checkout, csv_filename).
Proof.
  rewrite list_lookup_fmap.
  destruct (dates !! i) as [[checkin checkout]|]; intros H; simplify_eq/=; eauto.
Qed.

Lemma worker_task i checkin checkout fs :
  dates !! i = Some (checkin, checkout) ->
  exists tr,
    worker D fuel (checkin, checkout, csv_filename) (site i) fs
    = match task_batch D fuel site dates i with
      | Ok hotels =>
          (Ok (Z.of_nat (length hotels)), write_to_csv hotels csv_filename fs, tr)
      | Raise e => (Raise e, fs, tr)
      | Spin => (Spin, fs, tr)
      end.
Proof.
  intros H. unfold worker, task_batch. rewrite H.
  destruct (scrape_date_combination_sync_retry D fuel checkin checkout
              (mkState (site i) [])) as [[hotels|e|] s]; simpl; eauto.
Qed.

#[local] Abbreviation sound := (pool_sound D fuel site dates).

Lemma pool_run_sound cs order :
  forall ps ps',
    sound ps -> pool_run D fuel site args_list cs order ps = Some ps' -> sound ps'.
Proof.
  induction order as [|i order IH]; intros ps ps' Hs H; cbn [pool_run] in H.
  - now inversion H; subst.
  - destruct (args_list !! i) as [args|] eqn:Ea; [|eauto].
    destruct (chunk_failed cs ps i || task_done ps i); [eauto|].
    apply args_list_lookup in Ea. destruct Ea as (checkin & checkout & Hd & ->).
    destruct (worker_task i checkin checkout (p_files ps) Hd) as (tr & Hw).
    rewrite Hw in H. clear Hw.
    destruct (task_batch D fuel site dates i) as [hotels|e|] eqn:Eb;
      [| |discriminate]; (eapply IH; [|exact H]); destruct Hs as [Hf Hc];
      split; simpl; try assumption.
    + intros j v Hj. destruct (decide (i = j)) as [<-|Hne].
      * rewrite lookup_insert_eq in Hj. inversion Hj; subst.
        split; [eapply lookup_lt_Some; eassumption|eauto].
      * rewrite lookup_insert_ne in Hj by assumption. eauto.
    + destruct (p_error ps); discriminate.
Qed.

Lemma pool_run_all_accepted cs order :
  (forall i, (i < length dates)%nat ->
     exists hotels, task_batch D fuel site dates i = Ok hotels) ->
  forall ps,
    p_failed ps = [] ->
    exists ps',
      pool_run D fuel site args_list cs order ps = Some ps'
      /\ p_failed ps' = [] /\ p_error ps' = p_error ps
      /\ (forall i, is_Some (p_counts ps !! i) -> is_Some (p_counts ps' !! i))
      /\ (forall i, In i order -> (i < length dates)%nat ->
            is_Some (p_counts ps' !! i)).
Proof.
  intros Hall. induction order as [|i order IH]; intros ps Hf; cbn [pool_run].
  - exists ps. repeat split; auto. intros i [].
  - assert (Hskip : forall ps0, p_failed ps0 = [] ->
              (forall j, is_Some (p_counts ps !! j) -> is_Some (p_counts ps0 !! j)) ->
              p_error ps0 = p_error ps ->
              ((i < length dates)%nat -> is_Some (p_counts ps0 !! i)) ->
              exists ps',
                pool_run D fuel site args_list cs order ps0 = Some ps'
                /\ p_failed ps' = [] /\ p_error ps' = p_error ps
                /\ (forall j, is_Some (p_counts ps !! j) -> is_Some (p_counts ps' !! j))
                /\ (forall j, In j (i :: order) -> (j < length dates)%nat ->
                      is_Some (p_counts ps' !! j))).
    { intros ps0 Hf0 Hmono He Hi.
      destruct (IH ps0 Hf0) as (ps' & Hr & Hf' & He' & Hm' & Hin').
      exists ps'. repeat split; auto; [congruence|].
      intros j [<-|Hj] Hlt; auto. }
    destruct (args_list !! i) as [args|] eqn:Ea.
    + apply args_list_lookup in Ea. destruct Ea as (checkin & checkout & Hd & ->).
      unfold chunk_failed at 1. rewrite Hf. cbn [existsb orb].
      destruct (task_done ps i) eqn:Edone.
      * apply Hskip; auto. intros _. unfold task_done in Edone.
        destruct (p_counts ps !! i); [eauto|discriminate].
      * destruct (worker_task i checkin checkout (p_files ps) Hd) as (tr & ->).
        destruct (Hall i) as (hotels & ->); [eapply lookup_lt_Some; eassumption|].
        apply Hskip; simpl; auto.
        -- intros j Hj. destruct (decide (i = j)) as [<-|Hne].
           ++ rewrite lookup_insert_eq. eauto.
           ++ now rewrite lookup_insert_ne.
        -- intros _. rewrite lookup_insert_eq. eauto.
    + apply Hskip; auto. intros Hlt.
      apply lookup_ge_None in Ea.
      rewrite length_map in Ea. lia.
Qed.

Lemma pool_sound_start (fs : filesystem) : sound (mkPool fs [] ∅ [] None).
Proof. split; [reflexivity|]. intros i v H. simpl in H. now rewrite lookup_empty in H. Qed.

Lemma pool_map_all_accepted order (fs : filesystem) :
  (forall i, (i < length dates)%nat ->
     exists hotels, task_batch D fuel site dates i = Ok hotels) ->
  (forall i, (i < length dates)%nat -> In i order) ->
  exists fs' tr,
    pool_map D fuel site args_list order fs
    = (Ok (map (fun i => batch_size (task_batch D fuel site dates i))
             (seq 0 (length dates))), fs', tr).
Proof.
  intros Hall Hcover. unfold pool_map. rewrite length_map.
  set (cs := chunksize (length dates) 24).
  destruct (pool_run_all_accepted cs order Hall (mkPool fs [] ∅ [] None) eq_refl)
    as (ps' & Hrun & Hf & He & _ & Hin).
  pose proof (pool_run_sound cs order _ _ (pool_sound_start fs) Hrun) as [_ Hc].
  rewrite Hrun. simpl in He. rewrite He.
  assert (Hdone : forall i, In i (seq 0 (length dates)) -> is_Some (p_counts ps' !! i)).
  { intros i Hi. apply in_seq in Hi. apply Hin; [apply Hcover|]; lia. }
  replace (forallb (fun i => chunk_failed cs ps' i || task_done ps' i)
             (seq 0 (length dates))) with true.
  - eexists _, _. f_equal. f_equal. f_equal. apply map_ext_in. intros i Hi.
    destruct (Hdone i Hi) as [v Hv]. rewrite Hv. simpl.
    destruct (Hc i v Hv) as (_ & hotels & -> & ->). reflexivity.
  - symmetry. apply forallb_forall. intros i Hi. unfold task_done.
    destruct (Hdone i Hi) as [v ->]. apply orb_true_r.
Qed.

Lemma pool_map_Ok_inv order (fs : filesystem) counts fs' tr :
  pool_map D fuel site args_list order fs = (Ok counts, fs', tr) ->
  forall i, (i < length dates)%nat ->
    exists hotels, task_batch D fuel site dates i = Ok hotels.
Proof.
  unfold pool_map. rewrite length_map.
  set (cs := chunksize (length dates) 24).
  destruct (pool_run D fuel site args_list cs order (mkPool fs [] ∅ [] None))
    as [ps'|] eqn:Hrun; [|discriminate].
  destruct (forallb _ _) eqn:Hall; [|discriminate].
  destruct (p_error ps') eqn:He; [discriminate|]. intros _ i Hi.
  destruct (pool_run_sound cs order _ _ (pool_sound_start fs) Hrun) as [Hf Hc].
  specialize (Hf He).
  rewrite forallb_forall in Hall. specialize (Hall i).
  unfold chunk_failed, task_done in Hall. rewrite Hf in Hall. simpl in Hall.
  destruct (p_counts ps' !! i) as [v|] eqn:Hv.
  - destruct (Hc i v Hv) as (_ & hotels & E & _). eauto.
  - assert (false = true); [|discriminate]. apply Hall, in_seq. lia.
Qed.

End DispatcherFacts.

Lemma task_batch_accepted {W : Type} (D : driver W) fuel site dates i hotels :
  task_batch D fuel site dates i = Ok hotels -> (100 <= length hotels)%nat.
Proof.
  unfold task_batch. destruct (dates !! i) as [[checkin checkout]|]; [|discriminate].
  destruct (scrape_date_combination_sync_retry D fuel checkin checkout
              (mkState (site i) [])) as [r s'] eqn:E.
  simpl. intros ->. now apply retry_Ok_inv in E.
Qed.

(** C6, as the code has it. The dispatcher hands every task of the
    partitioner to the pool and comes back when all are over. When every
    task's executor is accepted it prints the sum of the sizes of the
    accepted batches and answers the name of the output file; and when
    it answers at all, that answer is the file name and every task has
    been accepted, with 100 records or more. *)
Theorem dispatcher_prints_total {W : Type} (D : driver W) (fuel : nat) (ttt los : Z)
    (start_date end_date : option Z) (today now : Z) (site : nat -> W)
    (order : list nat) (fs : filesystem) (dates : list task) :
  scrape_all_dates_sync_dates ttt los start_date end_date today = Ok dates ->
  ((forall i, (i < length dates)%nat ->
      exists hotels, task_batch D fuel site dates i = Ok hotels) ->
   (forall i, (i < length dates)%nat -> In i order) ->
   exists fs' tr,
     scrape_all_dates_sync D fuel ttt los start_date end_date today now site order fs
     = (Ok (PStr (run_csv_filename now)), fs',
        tr ++ [EPrintTotal
                 (fold_left Z.add
                    (map (fun i => batch_size (task_batch D fuel site dates i))
                       (seq 0 (length dates))) 0)]))
  /\ (forall v fs' tr,
        scrape_all_dates_sync D fuel ttt los start_date end_date today now site order fs
        = (Ok v, fs', tr) ->
        v = PStr (run_csv_filename now)
        /\ forall i, (i < length dates)%nat ->
             exists hotels,
               task_batch D fuel site dates i = Ok hotels
               /\ (100 <= length hotels)%nat).
Proof.
  intros Hdates. unfold scrape_all_dates_sync. rewrite Hdates. cbv zeta. split.
  - intros Hall Hcover.
    destruct (pool_map_all_accepted D fuel site dates (run_csv_filename now) order
                (match fs !! run_csv_filename now with
                 | Some _ => delete (run_csv_filename now) fs
                 | None => fs
                 end) Hall Hcover) as (fs' & tr & ->).
    eauto.
  - intros v fs' tr H.
    destruct (pool_map D fuel site _ order _) as [[[counts|e|] fs1] tr1] eqn:Hmap;
      inversion H; subst. split; [reflexivity|].
    intros i Hi.
    destruct (pool_map_Ok_inv D fuel site dates _ order _ _ _ _ Hmap i Hi)
      as (hotels & E).
    exists hotels. split; [assumption|]. eapply task_batch_accepted, E.
Qed.

Lemma dispatcher_prints_total_witness :
  exists fs' tr,
    scrape_all_dates_sync Site.site 1 30 2 (Some 738886) (Some 738886) 738886 738886
      (fun _ => Site.steady 100) [1; 0]%nat ∅
    = (Ok (PStr (run_csv_filename 738886)), fs',
       tr ++ [EPrintTotal
                (fold_left Z.add
                   (map (fun i => batch_size
                                    (task_batch Site.site 1 (fun _ => Site.steady 100)
                                       [(738886, 738887); (738886, 738888)] i))
                      (seq 0 2)) 0)]).
Proof.
  apply (proj1 (dispatcher_prints_total Site.site 1 30 2 (Some 738886) (Some 738886)
                  738886 738886 (fun _ => Site.steady 100) [1; 0]%nat ∅
                  [(738886, 738887); (738886, 738888)] eq_refl)).
  - intros [|[|i]] Hi; [| |simpl in Hi; lia].
    + evaluate (task_batch Site.site 1 (fun _ => Site.steady 100)
                  [(738886, 738887); (738886, 738888)] 0) E.
      match type of E with _ = Ok ?h => exists h; exact E end.
    + evaluate (task_batch Site.site 1 (fun _ => Site.steady 100)
                  [(738886, 738887); (738886, 738888)] 1) E.
      match type of E with _ = Ok ?h => exists h; exact E end.
  - intros [|[|i]] Hi; simpl in *; [tauto|tauto|lia].
Defined.

(** With two tasks of 100 records each the dispatcher prints 200 and
    answers the file name, not the number. *)
Lemma dispatcher_returns_file_name :
  let r := scrape_all_dates_sync Site.site 1 30 2 (Some 738886) (Some 738886)
             738886 738886 (fun _ => Site.steady 100) [1; 0]%nat ∅ in
  fst (fst r) = Ok (PStr "booking_com_20240101.csv")
  /\ List.last (snd r) (EPrintTotal 0) = EPrintTotal 200
  /\ fst (fst r) <> Ok (PInt 200).
Proof.
  assert (E : fst (fst (scrape_all_dates_sync Site.site 1 30 2 (Some 738886)
                          (Some 738886) 738886 738886 (fun _ => Site.steady 100)
                          [1; 0]%nat ∅))
              = Ok (PStr "booking_com_20240101.csv"))
    by (vm_compute; reflexivity).
  cbv zeta. split; [exact E|]. split; [vm_compute; reflexivity|].
  rewrite E. discriminate.
Qed.

Example run_file_after_two_tasks :
  let r := scrape_all_dates_sync Site.site 1 30 2 (Some 738886) (Some 738886)
             738886 738886 (fun _ => Site.steady 100) [1; 0]%nat ∅ in
  option_map (fun lines => (headers lines, data_rows lines))
    (snd (fst r) !! "booking_com_20240101.csv")
  = Some (1%nat, 200%nat).
Proof. vm_compute. reflexivity. Qed.

Example main_reads_back :
  fst (fst (main Site.site 1 738886 738886 (fun _ => Site.steady 100) (seq 0 155) ∅))
  = Ok (155 * 100)%nat.
Proof. vm_compute. reflexivity. Qed.


(** * Further properties of the code *)

(** ** The partitioner at its edges *)

Section PartitionerEdges.

Lemma add_days_outcome d n :
  Date.add_days d n = Ok (d + n) /\ Date.MINORDINAL <= d + n <= Date.MAXORDINAL
  \/ Date.add_days d n = Raise OverflowError.
Proof.
  unfold Date.add_days.
  destruct (Z.abs n <=? Date.MAX_DELTA_DAYS); simpl; [|now right].
  destruct (Date.MINORDINAL <=? d + n) eqn:E1; simpl; [|now right].
  destruct (d + n <=? Date.MAXORDINAL) eqn:E2; [|now right].
  left. apply Z.leb_le in E1, E2. auto.
Qed.

(** The inner loop answers the stays of the day, or raises
    [OverflowError]; when it answers, every check-out was a date. *)
Lemma get_dates_stays_outcome d js :
  forall acc,
    (get_dates_stays d js acc = Ok (acc ++ map (fun j => (d, d + j)) js)
     /\ Forall (fun j => d + j <= Date.MAXORDINAL) js)
    \/ get_dates_stays d js acc = Raise OverflowError.
Proof.
  induction js as [|j js IH]; intros acc; simpl.
  - left. rewrite app_nil_r. auto.
  - destruct (add_days_outcome d j) as [[-> Hj]| ->]; simpl; [|now right].
    destruct (IH (acc ++ [(d, d + j)])) as [[-> Hjs]| ->]; [|now right].
    left. rewrite <- app_assoc. split; [reflexivity|].
    constructor; [lia|assumption].
Qed.

Lemma py_range_last lo hi : lo < hi -> In (hi - 1) (py_range lo hi).
Proof.
  intros H. unfold py_range. apply in_map_iff.
  exists (Z.to_nat (hi - 1 - lo)). split; [lia|]. apply in_seq. lia.
Qed.

Lemma py_range_empty lo hi : hi <= lo -> py_range lo hi = [].
Proof.
  intros H. unfold py_range. replace (Z.to_nat (hi - lo)) with O by lia. reflexivity.
Qed.

Lemma get_dates_loop_overflow los e :
  1 <= los -> e <= Date.MAXORDINAL -> Date.MAXORDINAL < e + los ->
  forall (days : nat) (d : Z) (fuel : nat) (acc : list task),
    1 <= d -> Z.of_nat days = e - d -> (days < fuel)%nat ->
    get_dates_loop fuel d e los acc = Raise OverflowError.
Proof.
  intros Hlos He Hover. unfold Date.MAXORDINAL in *.
  induction days as [|days IH]; intros d fuel acc Hd Hdays Hfuel;
    (destruct fuel as [|fuel]; [lia|]); simpl;
    (replace (d <=? e) with true by (symmetry; apply Z.leb_le; lia));
    (destruct (get_dates_stays_outcome d (py_range 1 (los + 1)) acc)
       as [[-> Hall]| ->]; [|reflexivity]);
    rewrite List.Forall_forall in Hall;
    pose proof (Hall los) as Hl;
    replace los with (los + 1 - 1) in Hl at 1 by lia;
    specialize (Hl (py_range_last 1 (los + 1) ltac:(lia)));
    unfold Date.MAXORDINAL in Hl; simpl.
  - lia.
  - rewrite add_days_ok
      by (unfold Date.MINORDINAL, Date.MAXORDINAL, Date.MAX_DELTA_DAYS; lia).
    simpl. apply IH; lia.
Qed.

Lemma get_dates_loop_no_stays los e :
  los <= 0 -> e < Date.MAXORDINAL ->
  forall (days : nat) (d : Z) (fuel : nat) (acc : list task),
    1 <= d -> Z.of_nat days = e - d + 1 -> (days < fuel)%nat ->
    get_dates_loop fuel d e los acc = Ok acc.
Proof.
  intros Hlos He. unfold Date.MAXORDINAL in He.
  induction days as [|days IH]; intros d fuel acc Hd Hdays Hfuel;
    (destruct fuel as [|fuel]; [lia|]); simpl.
  - replace (d <=? e) with false by (symmetry; apply Z.leb_gt; lia). reflexivity.
  - replace (d <=? e) with true by (symmetry; apply Z.leb_le; lia).
    rewrite py_range_empty by lia. simpl.
    rewrite add_days_ok
      by (unfold Date.MINORDINAL, Date.MAXORDINAL, Date.MAX_DELTA_DAYS; lia).
    simpl. apply IH; lia.
Qed.

(** X1. With a length of stay of zero or less the inner [range] is empty:
    for dates [start_date <= end_date], [end_date] before 9999-12-31,
    [get_dates] walks the days and answers the empty list. *)
Theorem get_dates_no_stay (today start_date end_date los : Z) :
  Date.valid start_date -> start_date <= end_date -> end_date < Date.MAXORDINAL ->
  los <= 0 ->
  get_dates today (Some start_date) (Some end_date) los = Ok [].
Proof.
  intros [Hs _] Hse He Hlos. unfold Date.MINORDINAL in Hs.
  unfold get_dates. cbn [obind].
  apply get_dates_loop_no_stays with (days := Z.to_nat (end_date - start_date + 1));
    try assumption; lia.
Qed.

Lemma get_dates_no_stay_witness :
  get_dates 738000 (Some 738886) (Some 738900) 0 = Ok [].
Proof.
  apply get_dates_no_stay;
    unfold Date.valid, Date.MINORDINAL, Date.MAXORDINAL; lia.
Defined.

(** X2. When the last check-out would fall after 9999-12-31, that is
    [end_date + los] is past the last ordinal, [get_dates] answers no
    partial list: it raises [OverflowError]. *)
Theorem get_dates_overflows (today start_date end_date los : Z) :
  Date.valid start_date -> Date.valid end_date ->
  start_date <= end_date -> 1 <= los -> Date.MAXORDINAL < end_date + los ->
  get_dates today (Some start_date) (Some end_date) los = Raise OverflowError.
Proof.
  intros [Hs _] [_ He] Hse Hlos Hover. unfold Date.MINORDINAL in Hs.
  unfold get_dates. cbn [obind].
  apply get_dates_loop_overflow with (days := Z.to_nat (end_date - start_date));
    try assumption; lia.
Qed.

Lemma get_dates_overflows_witness :
  get_dates 738000 (Some 3652050) (Some 3652055) 5 = Raise OverflowError.
Proof.
  apply get_dates_overflows;
    unfold Date.valid, Date.MINORDINAL, Date.MAXORDINAL; lia.
Defined.

(** X3. What [get_dates] answers, as a list: for explicit dates, the
    stays of [1 .. los] nights of each day from [start_date] to
    [end_date], a check-out being the check-in plus the nights; and with
    both dates left out, the same for the 31 days that begin today. *)
Theorem get_dates_exact (today start_date end_date los : Z) :
  1 <= los ->
  (Date.valid start_date -> start_date <= end_date ->
   end_date + los <= Date.MAXORDINAL ->
   get_dates today (Some start_date) (Some end_date) los
   = Ok (generateTasks_spec start_date (Z.to_nat (end_date - start_date + 1)) los))
  /\ (Date.valid today -> today + 30 + los <= Date.MAXORDINAL ->
      get_dates today None None los = Ok (generateTasks_spec today 31 los)).
Proof.
  intros Hlos. split.
  - intros [Hs _] Hse Hmax. unfold Date.MINORDINAL in Hs.
    unfold get_dates. cbn [obind].
    rewrite get_dates_loop_ok with (days := Z.to_nat (end_date - start_date + 1));
      try assumption; try lia. reflexivity.
  - intros [Ht _] Hmax. unfold Date.MINORDINAL, Date.MAXORDINAL in *.
    unfold get_dates.
    rewrite add_days_ok
      by (unfold Date.MINORDINAL, Date.MAXORDINAL, Date.MAX_DELTA_DAYS; lia).
    cbn [obind].
    rewrite get_dates_loop_ok with (days := 31%nat);
      try assumption; try (unfold Date.MAXORDINAL; lia). reflexivity.
Qed.

Lemma get_dates_exact_witness :
  get_dates 738886 (Some 738886) (Some 738887) 2
  = Ok (generateTasks_spec 738886 (Z.to_nat (738887 - 738886 + 1)) 2)
  /\ get_dates 738886 None None 2 = Ok (generateTasks_spec 738886 31 2).
Proof.
  destruct (get_dates_exact 738886 738886 738887 2 ltac:(lia)) as [H1 H2].
  split; [apply H1|apply H2];
    unfold Date.valid, Date.MINORDINAL, Date.MAXORDINAL; lia.
Defined.

End PartitionerEdges.

(** ** What the helpers leave in the trace *)

Section TraceFacts.

Context {W : Type} (D : driver W).

Lemma count_events_app p t1 t2 :
  count_events p (t1 ++ t2) = (count_events p t1 + count_events p t2)%nat.
Proof. unfold count_events. now rewrite List.filter_app, length_app. Qed.

Lemma silent_ret {A} (a : A) : silent (ret a : M W A).
Proof. intros s. reflexivity. Qed.

Lemma silent_raise {A} e : silent (raise e : M W A).
Proof. intros s. reflexivity. Qed.

Lemma silent_of_option {A} e (o : option A) : silent (of_option e o : M W A).
Proof. destruct o; intros s; reflexivity. Qed.

Lemma silent_bind {A B} (c : M W A) (k : A -> M W B) :
  silent c -> (forall a, silent (k a)) -> silent (bind c k).
Proof.
  intros Hc Hk s. unfold bind. specialize (Hc s).
  destruct (c s) as [[a|e|] s1]; simpl in *; try assumption.
  rewrite Hk. assumption.
Qed.

Lemma silent_try_except {A} (c : M W A) handles h :
  silent c -> (forall e, silent (h e)) -> silent (try_except c handles h).
Proof.
  intros Hc Hh s. unfold try_except. specialize (Hc s).
  destruct (c s) as [[a|e|] s1]; simpl in *; try assumption.
  destruct (handles e); [|assumption]. rewrite Hh. assumption.
Qed.

Lemma silent_is_visible l : silent (is_visible D l).
Proof. intros s. unfold is_visible. now destruct (drv_is_visible D l (env s)). Qed.

Lemma silent_count l : silent (count D l).
Proof. intros s. unfold count. now destruct (drv_count D l (env s)). Qed.

Lemma silent_inner_text l t : silent (inner_text D l t).
Proof. intros s. unfold inner_text. now destruct (drv_inner_text D l t (env s)). Qed.

Lemma silent_get_attribute l n : silent (get_attribute D l n).
Proof.
  intros s. unfold get_attribute. now destruct (drv_get_attribute D l n (env s)).
Qed.

Lemma silent_random_uniform lo hi : silent (random_uniform D lo hi).
Proof. intros s. unfold random_uniform. now destruct (drv_uniform D lo hi (env s)). Qed.

Lemma adds_silent {A} (c : M W A) p : silent c -> adds_at_most c p 0.
Proof. intros H s. exists []. rewrite H, app_nil_r. split; [reflexivity|]. apply Nat.le_refl. Qed.

Lemma adds_weaken {A} (c : M W A) p n m :
  adds_at_most c p n -> (n <= m)%nat -> adds_at_most c p m.
Proof. intros H Hnm s. destruct (H s) as (t & E & Ht). exists t. split; [assumption|lia]. Qed.

Lemma adds_call a p :
  adds_at_most (call D a) p (if p (EDo a) then 1 else 0).
Proof.
  intros s. unfold call. destruct (drv_do D a (env s)) as [r w]. simpl.
  exists [EDo a]. split; [reflexivity|]. unfold count_events. simpl.
  destruct (p (EDo a)); simpl; lia.
Qed.

Lemma adds_sleep q p : adds_at_most (sleep D q) p (if p (ESleep q) then 1 else 0).
Proof.
  intros s. unfold sleep. simpl. exists [ESleep q]. split; [reflexivity|].
  unfold count_events. simpl. destruct (p (ESleep q)); simpl; lia.
Qed.

Lemma adds_bind_post {A B} (c : M W A) (k : A -> M W B) (P : A -> Prop) p n m :
  adds_at_most c p n -> post c P -> (forall a, P a -> adds_at_most (k a) p m) ->
  adds_at_most (bind c k) p (n + m).
Proof.
  intros Hc Hp Hk s. unfold bind. destruct (Hc s) as (t1 & E1 & H1).
  specialize (Hp s).
  destruct (c s) as [[a|e|] s1]; simpl in *;
    try (exists t1; split; [assumption|lia]).
  destruct (Hk a (Hp a s1 eq_refl) s1) as (t2 & E2 & H2).
  exists (t1 ++ t2). rewrite E2, E1, <- app_assoc, count_events_app.
  split; [reflexivity|lia].
Qed.

Lemma adds_bind {A B} (c : M W A) (k : A -> M W B) p n m :
  adds_at_most c p n -> (forall a, adds_at_most (k a) p m) ->
  adds_at_most (bind c k) p (n + m).
Proof.
  intros Hc Hk. apply adds_bind_post with (P := fun _ => True); auto.
  intros s a s' _. exact I.
Qed.

Lemma adds_try_except {A} (c : M W A) handles h p n m :
  adds_at_most c p n -> (forall e, adds_at_most (h e) p m) ->
  adds_at_most (try_except c handles h) p (n + m).
Proof.
  intros Hc Hh s. unfold try_except. destruct (Hc s) as (t1 & E1 & H1).
  destruct (c s) as [[a|e|] s1]; simpl in *;
    try (exists t1; split; [assumption|lia]).
  destruct (handles e); [|exists t1; split; [assumption|lia]].
  destruct (Hh e s1) as (t2 & E2 & H2).
  exists (t1 ++ t2). rewrite E2, E1, <- app_assoc, count_events_app.
  split; [reflexivity|lia].
Qed.

Lemma adds_try_finally {A} (c : M W A) (f : M W unit) p n m :
  adds_at_most c p n -> adds_at_most f p m ->
  adds_at_most (try_finally c f) p (n + m).
Proof.
  intros Hc Hf s. unfold try_finally, bind, ret, raise.
  destruct (Hc s) as (t1 & E1 & H1).
  destruct (c s) as [[a|e|] s1]; simpl in *;
    try (exists t1; split; [assumption|lia]);
    destruct (Hf s1) as (t2 & E2 & H2);
    (exists (t1 ++ t2); split; [|rewrite count_events_app; lia]);
    destruct (f s1) as [[[]|e'|] s2]; simpl in *;
    rewrite E2, E1, <- app_assoc; reflexivity.
Qed.

Lemma adds_for_each {A} (xs : list A) (body : A -> M W unit) p :
  (forall x, adds_at_most (body x) p 0) -> adds_at_most (for_each xs body) p 0.
Proof.
  intros Hb. induction xs as [|x xs IH]; simpl.
  - apply adds_silent, silent_ret.
  - apply (adds_bind _ _ p 0 0); auto.
Qed.

End TraceFacts.

#[export] Hint Resolve silent_ret silent_raise silent_of_option silent_bind
  silent_try_except silent_is_visible silent_count silent_inner_text
  silent_get_attribute silent_random_uniform : scraper.

(** ** The page helpers *)

Section HelperFacts.

Context {W : Type} (D : driver W).

Lemma returns_try_except_any {A} (c : M W A) (h : exn -> M W A) :
  ends c -> (forall e, returns (h e)) -> returns (try_except c any_Exception h).
Proof.
  intros Hc Hh s. unfold try_except, any_Exception. specialize (Hc s).
  destruct (c s) as [[a|e|] s1]; simpl in *; [eauto|apply Hh|congruence].
Qed.

Lemma returns_fallback_click x y : returns (fallback_click D x y).
Proof. unfold fallback_click. auto with scraper. Qed.

Lemma returns_dismiss_genius_popup_if_present timeout :
  returns (dismiss_genius_popup_if_present D timeout).
Proof.
  unfold dismiss_genius_popup_if_present.
  apply returns_try_except_any; [auto with scraper|].
  intros [m|m|c m]; auto using returns_fallback_click with scraper.
  destruct (Text.contains _ _); auto using returns_fallback_click with scraper.
Qed.

(** X4. Neither the fallback click nor the dismissal of the sign-in
    popup lets an exception out: whatever the page does, both come
    back. *)
Theorem popup_dismissal_never_raises (x y timeout : Z) :
  returns (fallback_click D x y)
  /\ returns (dismiss_genius_popup_if_present D timeout).
Proof.
  split; [apply returns_fallback_click|apply returns_dismiss_genius_popup_if_present].
Qed.

Lemma adds_fallback_click x y p :
  (forall a b, p (EDo (MouseClick a b)) = false) ->
  adds_at_most (fallback_click D x y) p 0.
Proof.
  intros Hp. unfold fallback_click.
  apply (adds_try_except _ _ _ p 0 0).
  - pose proof (adds_call D (MouseClick x y) p) as H. now rewrite Hp in H.
  - intros _. apply adds_silent, silent_ret.
Qed.

Lemma adds_next_month_round p :
  p = is_next_month_click ->
  adds_at_most
    (try_except
       (bind (call D (Click (GetByRole "button" "Next month" false)))
          (fun _ => sleep D 1))
       any_Exception (fun _ => fallback_click D 10 10)) p 1.
Proof.
  intros ->. apply (adds_try_except _ _ _ _ 1 0).
  - apply (adds_bind _ _ _ 1 0).
    + exact (adds_call D (Click (GetByRole "button" "Next month" false))
               is_next_month_click).
    + intros _. exact (adds_sleep D 1 is_next_month_click).
  - intros _. now apply adds_fallback_click.
Qed.

Lemma adds_ensure_date_visible_loop date_str max_attempts :
  forall fuel attempts,
    adds_at_most (ensure_date_visible_loop D fuel date_str max_attempts attempts)
      is_next_month_click (Z.to_nat (max_attempts - attempts)).
Proof.
  induction fuel as [|fuel IH]; intros attempts; simpl.
  - eapply adds_weaken; [apply adds_silent; intros s; reflexivity|lia].
  - eapply adds_weaken.
    + apply (adds_bind _ _ is_next_month_click 0
               (Z.to_nat (max_attempts - attempts))).
      * apply adds_silent, silent_is_visible.
      * intros visible.
        destruct (negb visible && (attempts <? max_attempts)) eqn:E.
        -- apply andb_true_iff in E. destruct E as [_ E]. apply Z.ltb_lt in E.
           eapply adds_weaken.
           ++ apply (adds_bind _ _ is_next_month_click 1
                       (Z.to_nat (max_attempts - (attempts + 1)))).
              ** now apply adds_next_month_round.
              ** intros _. apply IH.
           ++ lia.
        -- eapply adds_weaken; [apply adds_silent, silent_ret|lia].
    + lia.
Qed.

Lemma returns_ensure_date_visible_loop date_str max_attempts :
  (forall w, exists b w',
     drv_is_visible D (GetByRole "checkbox" date_str true) w = (Done b, w')) ->
  forall fuel attempts,
    (Z.to_nat (max_attempts - attempts) < fuel)%nat ->
    returns (ensure_date_visible_loop D fuel date_str max_attempts attempts).
Proof.
  intros Hvis. induction fuel as [|fuel IH]; intros attempts Hfuel; [lia|]. simpl.
  apply returns_bind.
  - intros s. unfold is_visible.
    destruct (Hvis (env s)) as (b & w' & ->).
    simpl. eauto.
  - intros visible.
    destruct (negb visible && (attempts <? max_attempts)) eqn:E; [|auto with scraper].
    apply andb_true_iff in E. destruct E as [_ E]. apply Z.ltb_lt in E.
    apply returns_bind.
    + apply returns_try_except_any; [auto with scraper|].
      intros _. apply returns_fallback_click.
    + intros _. apply IH. lia.
Qed.

(** X5. The search for a date in the calendar is bounded: it clicks
    "Next month" at most [max_attempts] times. A click that fails is
    swallowed, so the search comes back whenever the visibility checks
    answer; it does not stop the attempt when the date never shows. *)
Theorem ensure_date_visible_bounded (date_str : string) (max_attempts : Z) :
  adds_at_most (ensure_date_visible D date_str max_attempts)
    is_next_month_click (Z.to_nat max_attempts)
  /\ ((forall w, exists b w',
         drv_is_visible D (GetByRole "checkbox" date_str true) w = (Done b, w')) ->
      returns (ensure_date_visible D date_str max_attempts)).
Proof.
  split.
  - unfold ensure_date_visible. eapply adds_weaken.
    + apply (adds_bind _ _ is_next_month_click (Z.to_nat (max_attempts - 0)) 0).
      * apply adds_ensure_date_visible_loop.
      * intros _. apply adds_silent, silent_ret.
    + lia.
  - intros Hvis. unfold ensure_date_visible. apply returns_bind; [|auto with scraper].
    apply returns_ensure_date_visible_loop; [assumption|lia].
Qed.




End HelperFacts.


Lemma ensure_date_visible_bounded_witness :
  returns (ensure_date_visible Site.site "1 January 2024" 12).
Proof.
  apply (proj2 (ensure_date_visible_bounded Site.site "1 January 2024" 12)).
  intros w. eexists _, _. reflexivity.
Defined.

(** ** The budget of the loader *)

Section LoaderFacts.

Context {W : Type} (D : driver W).

Ltac quiet_call :=
  match goal with
  | |- adds_at_most (call _ ?a) ?p _ => exact (adds_call D a p)
  | |- adds_at_most (sleep _ ?q) ?p _ => exact (adds_sleep D q p)
  end.

Lemma more_full_scroll_bottom attempts pause :
  adds_at_most (full_scroll_bottom D attempts pause) is_load_more_click 0.
Proof.
  unfold full_scroll_bottom. apply adds_for_each. intros _.
  apply (adds_bind _ _ _ 0 0); [quiet_call|intros _; quiet_call].
Qed.

Lemma more_human_like_scroll_loop total_scroll step max_delay :
  forall fuel scrolled,
    adds_at_most (human_like_scroll_loop D fuel scrolled total_scroll step max_delay)
      is_load_more_click 0.
Proof.
  induction fuel as [|fuel IH]; intros scrolled; simpl.
  - apply adds_silent. intros s. reflexivity.
  - destruct (scrolled <? total_scroll); [|apply adds_silent, silent_ret].
    apply (adds_bind _ _ _ 0 0); [quiet_call|intros _].
    apply (adds_bind _ _ _ 0 0); [apply adds_silent, silent_random_uniform|intros pause].
    apply (adds_bind _ _ _ 0 0); [quiet_call|intros _]. apply IH.
Qed.

Lemma more_human_like_scroll total_scroll step max_delay :
  adds_at_most (human_like_scroll D total_scroll step max_delay) is_load_more_click 0.
Proof.
  unfold human_like_scroll.
  apply (adds_bind _ _ _ 0 0); [apply more_human_like_scroll_loop|].
  intros _. apply adds_silent, silent_ret.
Qed.

Lemma more_fallback_click x y :
  adds_at_most (fallback_click D x y) is_load_more_click 0.
Proof. apply adds_fallback_click. reflexivity. Qed.

Lemma more_dismiss_genius_popup_if_present timeout :
  adds_at_most (dismiss_genius_popup_if_present D timeout) is_load_more_click 0.
Proof.
  unfold dismiss_genius_popup_if_present. apply (adds_try_except _ _ _ _ 0 0).
  - apply (adds_bind _ _ _ 0 0); [quiet_call|intros _; quiet_call].
  - intros [m|m|c m]; try apply more_fallback_click.
    + apply adds_silent, silent_ret.
    + destruct (Text.contains _ _); [apply adds_silent, silent_ret|].
      apply more_fallback_click.
Qed.

(** One round clicks "Load more results" at most once. *)
Lemma more_load_round min_count clicks :
  adds_at_most (load_round D min_count clicks) is_load_more_click 1.
Proof.
  unfold load_round.
  apply (adds_bind _ _ _ 0 1); [apply more_full_scroll_bottom|intros _].
  apply (adds_bind _ _ _ 0 1); [apply more_human_like_scroll|intros _].
  apply (adds_bind _ _ _ 0 1).
  { apply (adds_try_except _ _ _ _ 0 0).
    - apply (adds_bind _ _ _ 0 0); [quiet_call|intros _; apply adds_silent, silent_ret].
    - intros _.
      apply (adds_bind _ _ _ 0 0); [apply more_dismiss_genius_popup_if_present|intros _].
      apply (adds_bind _ _ _ 0 0); [quiet_call|intros _].
      apply (adds_bind _ _ _ 0 0); [apply more_full_scroll_bottom|intros _].
      apply (adds_try_except _ _ _ _ 0 0).
      + apply (adds_bind _ _ _ 0 0); [quiet_call|intros _; apply adds_silent, silent_ret].
      + intros _. apply adds_silent, silent_ret. }
  intros [|]; [|eapply adds_weaken; [apply adds_silent, silent_ret|lia]].
  apply (adds_bind _ _ _ 0 1); [apply adds_silent, silent_count|intros current_count].
  destruct (min_count <=? Z.of_nat current_count);
    [eapply adds_weaken; [apply adds_silent, silent_ret|lia]|].
  apply (adds_bind _ _ _ 1 0).
  { apply (adds_try_except _ _ _ _ 1 0).
    - apply (adds_bind _ _ _ 1 0); [quiet_call|intros _; apply adds_silent, silent_ret].
    - intros _.
      apply (adds_bind _ _ _ 0 0); [apply more_fallback_click|].
      intros _. apply adds_silent, silent_ret. }
  intros [|]; cbv zeta; [|apply adds_silent, silent_ret].
  apply (adds_try_except _ _ _ _ 0 0).
  - apply (adds_bind _ _ _ 0 0); [quiet_call|intros _; apply adds_silent, silent_ret].
  - intros _. apply adds_silent, silent_ret.
Qed.

Lemma more_load_hotel_cards_loop min_count max_clicks :
  forall fuel clicks rounds,
    adds_at_most (load_hotel_cards_loop D fuel min_count max_clicks clicks rounds)
      is_load_more_click (Z.to_nat (max_clicks - clicks)).
Proof.
  induction fuel as [|fuel IH]; intros clicks rounds; simpl.
  - eapply adds_weaken; [apply adds_silent; intros s; reflexivity|lia].
  - destruct (clicks <? max_clicks) eqn:E;
      [|eapply adds_weaken; [apply adds_silent, silent_ret|lia]].
    apply Z.ltb_lt in E. eapply adds_weaken.
    + eapply (adds_bind_post _ _ _ _ 1 (Z.to_nat (max_clicks - (clicks + 1)))).
      * apply more_load_round.
      * apply load_round_progress.
      * intros [|clicks'] Hr.
        -- eapply adds_weaken; [apply adds_silent, silent_ret|lia].
        -- eapply adds_weaken; [apply IH|lia].
    + lia.
Qed.

Lemma post_load_hotel_cards_loop min_count max_clicks :
  forall fuel clicks rounds,
    post (load_hotel_cards_loop D fuel min_count max_clicks clicks rounds)
      (fun r => (r <= rounds + Z.to_nat (max_clicks - clicks))%nat).
Proof.
  induction fuel as [|fuel IH]; intros clicks rounds s r s' H; simpl in H;
    [discriminate|].
  destruct (clicks <? max_clicks) eqn:E.
  - apply Z.ltb_lt in E. apply bind_Ok_inv in H.
    destruct H as ([|clicks'] & s1 & Hr & H).
    + inversion H; subst. lia.
    + apply load_round_progress in Hr. apply IH in H. lia.
  - inversion H; subst. lia.
Qed.

(** X7. The loader keeps to its budget: it goes through its loop at
    most [max_clicks] times and clicks "Load more results" at most
    [max_clicks] times, so not at all when the budget is zero; and what
    it answers is the locator of the property cards. *)
Theorem load_hotel_cards_budget (min_count max_clicks : Z) :
  adds_at_most (load_hotel_cards D min_count max_clicks)
    is_load_more_click (Z.to_nat max_clicks)
  /\ post (load_hotel_cards_rounds D min_count max_clicks)
       (fun r => r.1.1 = property_cards /\ (r.2 <= Z.to_nat max_clicks)%nat)
  /\ post (load_hotel_cards D min_count max_clicks) (fun l => l = property_cards).
Proof.
  assert (Hrounds : post (load_hotel_cards_rounds D min_count max_clicks)
            (fun r => r.1.1 = property_cards /\ (r.2 <= Z.to_nat max_clicks)%nat)).
  { intros s r s' H. unfold load_hotel_cards_rounds in H.
    apply bind_Ok_inv in H. destruct H as (rounds & s1 & Hl & H).
    apply post_load_hotel_cards_loop in Hl.
    apply bind_Ok_inv in H. destruct H as (? & ? & _ & H).
    apply bind_Ok_inv in H. destruct H as (? & ? & _ & H).
    apply bind_Ok_inv in H. destruct H as (? & ? & _ & H).
    inversion H; subst. simpl. split; [reflexivity|lia]. }
  split; [|split; [exact Hrounds|]].
  - unfold load_hotel_cards, load_hotel_cards_rounds. eapply adds_weaken.
    + apply (adds_bind _ _ _ (Z.to_nat (max_clicks - 0)) 0);
        [|intros ?; apply adds_silent, silent_ret].
      eapply adds_weaken;
        [apply (adds_bind _ _ _ (Z.to_nat (max_clicks - 0)) 0);
           [apply more_load_hotel_cards_loop|intros rounds]|lia].
      apply (adds_bind _ _ _ 0 0); [apply more_full_scroll_bottom|intros _].
      apply (adds_bind _ _ _ 0 0); [quiet_call|intros _].
      apply (adds_bind _ _ _ 0 0); [apply adds_silent, silent_count|intros ?].
      apply adds_silent, silent_ret.
    + lia.
  - intros s l s' H. unfold load_hotel_cards in H.
    apply bind_Ok_inv in H. destruct H as (r & s1 & Hr & H).
    apply Hrounds in Hr. inversion H; subst. tauto.
Qed.

End LoaderFacts.

(** ** What an attempt hands over *)

Section AttemptFacts.

Context {W : Type} (D : driver W).

Lemma dict_get_set_eq k v d : dict_get k (dict_set k v d) = Some v.
Proof.
  induction d as [|[k' v'] d IH]; simpl.
  - now rewrite String.eqb_refl.
  - destruct (String.eqb k k') eqn:E; simpl; rewrite ?String.eqb_refl, ?E; auto.
Qed.

Lemma dict_get_set_ne k k' v d :
  k <> k' -> dict_get k (dict_set k' v d) = dict_get k d.
Proof.
  intros Hne. apply String.eqb_neq in Hne.
  induction d as [|[k0 v0] d IH]; simpl.
  - now rewrite Hne.
  - destruct (String.eqb k' k0) eqn:E; simpl.
    + apply String.eqb_eq in E. subst k0. now rewrite Hne.
    + now rewrite IH.
Qed.

Lemma extract_hotel_data_length s l s' :
  extract_hotel_data D s = (Ok l, s') -> (length l <= 100)%nat.
Proof.
  intros H. pose proof H as H0. unfold extract_hotel_data in H.
  apply bind_Ok_inv in H. destruct H as (n & s1 & Hn & _).
  destruct (extract_hotel_data_ok D s n s1 Hn) as (l0 & s0 & E & Hlen & _).
  rewrite E in H0. inversion H0; subst. lia.
Qed.

(** The records of an attempt are those of the extractor, each stamped
    with the two dates of the task. *)
Lemma attempt_Ok_inv checkin checkout s hotels s' :
  scrape_date_combination_sync D checkin checkout s = (Ok hotels, s') ->
  exists l sa sb,
    extract_hotel_data D sa = (Ok l, sb)
    /\ hotels
       = map (fun hotel =>
                dict_set "checkout" (PStr (Date.strftime_d_B_Y checkout))
                  (dict_set "checkin" (PStr (Date.strftime_d_B_Y checkin)) hotel)) l.
Proof.
  intros H. unfold scrape_date_combination_sync in H.
  apply bind_Ok_inv in H. destruct H as (? & ? & _ & H).
  apply try_finally_Ok_inv in H. destruct H as (? & H & _).
  cbv zeta in H.
  do 14 (apply bind_Ok_inv in H; destruct H as (? & ? & _ & H)).
  apply bind_Ok_inv in H. destruct H as (l & sb & E & H).
  apply bind_Ok_inv in H. destruct H as (? & ? & _ & H).
  apply bind_Ok_inv in H. destruct H as (? & ? & _ & H).
  unfold ret in H. inversion H; subst. eauto.
Qed.

(** X8. An accepted batch holds exactly 100 records: the extractor
    stops at 100 cards and the wrapper takes nothing below 100. So a
    worker that comes back answers 100. *)
Theorem accepted_batch_is_100 (fuel : nat) (checkin checkout : Z) :
  (forall s hotels s',
     scrape_date_combination_sync D checkin checkout s = (Ok hotels, s') ->
     (length hotels <= 100)%nat)
  /\ (forall s hotels s',
        scrape_date_combination_sync_retry D fuel checkin checkout s = (Ok hotels, s') ->
        length hotels = 100%nat)
  /\ (forall csv_filename w fs n fs' tr,
        worker D fuel (checkin, checkout, csv_filename) w fs = (Ok n, fs', tr) ->
        n = 100).
Proof.
  assert (Hattempt : forall s hotels s',
            scrape_date_combination_sync D checkin checkout s = (Ok hotels, s') ->
            (length hotels <= 100)%nat).
  { intros s hotels s' H. apply attempt_Ok_inv in H.
    destruct H as (l & sa & sb & E & ->). rewrite length_map.
    eapply extract_hotel_data_length, E. }
  assert (Hretry : forall s hotels s',
            scrape_date_combination_sync_retry D fuel checkin checkout s
            = (Ok hotels, s') -> length hotels = 100%nat).
  { intros s hotels s' H. apply retry_Ok_inv in H. destruct H as (Hge & s0 & E).
    apply Hattempt in E. lia. }
  split; [exact Hattempt|split; [exact Hretry|]].
  intros csv_filename w fs n fs' tr H. unfold worker in H.
  destruct (scrape_date_combination_sync_retry D fuel checkin checkout (mkState w []))
    as [[hotels|e|] s1] eqn:E; inversion H; subst.
  apply Hretry in E. lia.
Qed.

(** X9. Every record of an attempt carries the task it comes from:
    its [checkin] and [checkout] are the two dates of the task, written
    as day, month name and year; and the stamping leaves the thirteen
    extracted fields as the extractor set them. *)
Theorem attempt_records_stamped (checkin checkout : Z) (s : state W)
    (hotels : list pydict) (s' : state W) :
  scrape_date_combination_sync D checkin checkout s = (Ok hotels, s') ->
  Forall (fun h =>
            dict_get "checkin" h = Some (PStr (Date.strftime_d_B_Y checkin))
            /\ dict_get "checkout" h = Some (PStr (Date.strftime_d_B_Y checkout)))
    hotels
  /\ exists l sa sb,
       extract_hotel_data D sa = (Ok l, sb)
       /\ Forall2 (fun d h => forall k, In k hotel_fields -> dict_get k h = dict_get k d)
            l hotels.
Proof.
  intros H. apply attempt_Ok_inv in H. destruct H as (l & sa & sb & E & ->). split.
  - apply List.Forall_forall. intros h Hh. apply in_map_iff in Hh.
    destruct Hh as (d & <- & _). split.
    + rewrite dict_get_set_ne by discriminate. apply dict_get_set_eq.
    + apply dict_get_set_eq.
  - exists l, sa, sb. split; [assumption|].
    clear E. induction l as [|d l IH]; simpl; constructor; [|assumption].
    intros k Hk. rewrite !dict_get_set_ne; [reflexivity| |];
      intros ->; simpl in Hk; repeat (destruct Hk as [Hk|Hk]; [discriminate|]);
      destruct Hk.
Qed.

Lemma try_finally_last {A} (c : M W A) (a : action) :
  ends c ->
  forall s, exists t, trace (snd (try_finally c (call D a) s)) = t ++ [EDo a].
Proof.
  intros Hc s. unfold try_finally, bind, ret, raise, call. specialize (Hc s).
  destruct (c s) as [[r|e|] s1]; simpl in Hc; [| |congruence];
    destruct (drv_do D a (env s1)) as [[[]|e'] w]; simpl; eauto.
Qed.

(** X10. An attempt whose driver has started ends with the stop of the
    driver, whether it comes back with records or with an exception; an
    attempt whose driver does not start does nothing else. *)
Theorem attempt_stops_driver (checkin checkout : Z) (s : state W) :
  (forall w, drv_do D PlaywrightStart (env s) = (Done tt, w) ->
     exists t,
       trace (snd (scrape_date_combination_sync D checkin checkout s))
       = t ++ [EDo PlaywrightStop])
  /\ (forall e w, drv_do D PlaywrightStart (env s) = (Failed e, w) ->
        scrape_date_combination_sync D checkin checkout s
        = (Raise e, mkState w (trace s ++ [EDo PlaywrightStart]))).
Proof.
  split.
  - intros w Hstart. unfold scrape_date_combination_sync.
    unfold bind at 1. unfold call at 1. rewrite Hstart. simpl.
    apply try_finally_last. cbv zeta.
    repeat (apply ends_bind;
            [first [apply ends_call | apply ends_ensure_date_visible
                   | apply ends_load_hotel_cards | apply ends_extract_hotel_data
                   | apply returns_ends, returns_sleep]|intros ?]).
    apply ends_ret.
  - intros e w Hstart. unfold scrape_date_combination_sync.
    unfold bind at 1. unfold call at 1. rewrite Hstart. reflexivity.
Qed.

End AttemptFacts.

Lemma accepted_batch_is_100_witness :
  exists hotels s',
    scrape_date_combination_sync_retry Site.site 1 738886 738887
      (mkState (Site.steady 120) []) = (Ok hotels, s')
    /\ length hotels = 100%nat.
Proof.
  evaluate (scrape_date_combination_sync_retry Site.site 1 738886 738887
              (mkState (Site.steady 120) [])) E.
  match type of E with _ = (Ok ?h, ?s1) =>
    exists h, s1; split; [exact E|];
    exact (proj1 (proj2 (accepted_batch_is_100 Site.site 1 738886 738887)) _ h s1 E)
  end.
Defined.

Lemma attempt_records_stamped_witness :
  exists hotels s',
    scrape_date_combination_sync Site.site 738886 738887
      (mkState (Site.steady 2) []) = (Ok hotels, s')
    /\ Forall (fun h =>
                 dict_get "checkin" h = Some (PStr (Date.strftime_d_B_Y 738886))
                 /\ dict_get "checkout" h = Some (PStr (Date.strftime_d_B_Y 738887)))
         hotels.
Proof.
  evaluate (scrape_date_combination_sync Site.site 738886 738887
              (mkState (Site.steady 2) [])) E.
  match type of E with _ = (Ok ?h, ?s1) =>
    exists h, s1; split; [exact E|];
    exact (proj1 (attempt_records_stamped Site.site 738886 738887 _ h s1 E))
  end.
Defined.

Lemma attempt_stops_driver_witness :
  exists t,
    trace (snd (scrape_date_combination_sync Site.site 738886 738887
                  (mkState (Site.dead_calendar 3) [])))
    = t ++ [EDo PlaywrightStop].
Proof.
  apply (proj1 (attempt_stops_driver Site.site 738886 738887
                  (mkState (Site.dead_calendar 3) [])) (Site.dead_calendar 3)).
  reflexivity.
Defined.

(** ** Numbers out of text *)

Section TextFacts.

#[local] Arguments String.append !s1 s2 : simpl nomatch.

Lemma append_empty_r (s : string) : (s ++ EmptyString)%string = s.
Proof. induction s as [|c s IH]; simpl; [reflexivity|now rewrite IH]. Qed.

Lemma rev_onto_twice (s : string) :
  forall a b, Text.rev_onto (Text.rev_onto s a) b = Text.rev_onto a (s ++ b)%string.
Proof. induction s as [|c s IH]; intros a b; simpl; [reflexivity|]. now rewrite IH. Qed.

Lemma rev_involutive (s : string) : Text.rev (Text.rev s) = s.
Proof. unfold Text.rev. rewrite rev_onto_twice. simpl. apply append_empty_r. Qed.

Lemma all_digits_rev_onto (s a : string) :
  all_digits (Text.rev_onto s a) = all_digits s && all_digits a.
Proof.
  revert a. induction s as [|c s IH]; intros a; simpl; [reflexivity|].
  rewrite IH. simpl. destruct (Text.is_digit c), (all_digits s); reflexivity.
Qed.

Lemma digit_not_space c : Text.is_digit c = true -> Text.is_space c = false.
Proof.
  unfold Text.is_digit, Text.is_space. intros H.
  apply andb_true_iff in H. destruct H as [H1 H2].
  apply N.leb_le in H1, H2.
  repeat (apply orb_false_iff; split);
    first [apply andb_false_iff; first [left; apply N.leb_gt; lia
                                       |right; apply N.leb_gt; lia]
          |apply N.eqb_neq; lia].
Qed.

Lemma drop_space_digits (s : string) :
  all_digits s = true -> Text.drop_while Text.is_space s = s.
Proof.
  destruct s as [|c s]; [reflexivity|]. simpl. intros H.
  apply andb_true_iff in H. destruct H as [H _].
  now rewrite (digit_not_space c H).
Qed.

Lemma strip_digits (s : string) : all_digits s = true -> Text.strip s = s.
Proof.
  intros H. unfold Text.strip. rewrite (drop_space_digits s H).
  rewrite drop_space_digits; [apply rev_involutive|].
  unfold Text.rev. rewrite all_digits_rev_onto, H. reflexivity.
Qed.

Lemma int_body_digits (s : string) :
  all_digits s = true -> s <> EmptyString ->
  forall b, Text.int_body b s = Some s.
Proof.
  induction s as [|c s IH]; intros H Hne b; [congruence|]. simpl in *.
  apply andb_true_iff in H. destruct H as [Hc Hs]. rewrite Hc.
  destruct s as [|c' s']; [reflexivity|].
  rewrite IH; [reflexivity|assumption|discriminate].
Qed.

Lemma digit_value_bounds c : Text.is_digit c = true -> 0 <= Text.digit_value c <= 9.
Proof.
  unfold Text.is_digit, Text.digit_value. intros H.
  apply andb_true_iff in H. destruct H as [H1 H2]. apply N.leb_le in H1, H2. lia.
Qed.

Lemma digits_value_from_nonneg (s : string) :
  all_digits s = true -> forall acc, 0 <= acc -> 0 <= Text.digits_value_from acc s.
Proof.
  induction s as [|c s IH]; intros H acc Hacc; simpl in *; [assumption|].
  apply andb_true_iff in H. destruct H as [Hc Hs].
  apply IH; [assumption|]. pose proof (digit_value_bounds c Hc). lia.
Qed.

Lemma all_digits_filter (s : string) : all_digits (Text.filter Text.is_digit s) = true.
Proof.
  induction s as [|c s IH]; simpl; [reflexivity|].
  destruct (Text.is_digit c) eqn:E; simpl; [now rewrite E|assumption].
Qed.

Lemma all_digits_take_while (s : string) :
  all_digits (Text.take_while Text.is_digit s) = true.
Proof.
  induction s as [|c s IH]; simpl; [reflexivity|].
  destruct (Text.is_digit c) eqn:E; simpl; [now rewrite E|reflexivity].
Qed.

Lemma all_digits_app (a b : string) :
  all_digits (a ++ b)%string = all_digits a && all_digits b.
Proof.
  induction a as [|c a IH]; simpl; [reflexivity|]. rewrite IH.
  now destruct (Text.is_digit c).
Qed.

(** [int] of a run of digits is its value, when the run is not longer
    than the interpreter converts. *)
Lemma py_int_digits (s : string) :
  all_digits s = true -> s <> EmptyString ->
  Text.py_int s = Text.int_of_digits s.
Proof.
  intros H Hne. unfold Text.py_int. rewrite (strip_digits s H).
  destruct s as [|c r]; [congruence|].
  assert (Hc : Text.is_digit c = true)
    by (simpl in H; apply andb_true_iff in H; tauto).
  destruct c as [[] [] [] [] [] [] [] []]; try discriminate Hc; cbv beta iota;
    rewrite (int_body_digits _ H Hne); reflexivity.
Qed.

(** A match of the pattern of a decimal is digits, a dot, digits; its
    value is not negative. *)
Lemma take_while_digits_dot (w f : string) :
  all_digits w = true ->
  Text.take_while Text.is_digit (w ++ String "." f)%string = w
  /\ Text.drop_while Text.is_digit (w ++ String "." f)%string = String "." f.
Proof.
  induction w as [|c w IH]; intros H; simpl in *; [auto|].
  apply andb_true_iff in H. destruct H as [Hc Hw]. rewrite Hc.
  destruct (IH Hw) as [-> ->]. auto.
Qed.

Lemma float_of_decimal_nonneg (w f : string) :
  all_digits w = true -> all_digits f = true ->
  Qle_bool 0 (Text.float_of_decimal (w ++ "." ++ f)%string) = true.
Proof.
  intros Hw Hf. unfold Text.float_of_decimal. simpl String.append.
  destruct (take_while_digits_dot w f Hw) as [-> ->].
  unfold Qle_bool. simpl. apply Z.leb_le.
  rewrite Z.mul_1_r. apply digits_value_from_nonneg; [|lia].
  now rewrite all_digits_app, Hw, Hf.
Qed.

Lemma decimal_here_nonneg (s m : string) :
  Text.decimal_here s = Some m ->
  Qle_bool 0 (Text.float_of_decimal m) = true.
Proof.
  unfold Text.decimal_here.
  pose proof (all_digits_take_while s) as Hw.
  destruct (Text.take_while Text.is_digit s) as [|c w] eqn:Ew; [discriminate|].
  destruct (Text.drop_while Text.is_digit s) as [|d r]; [discriminate|].
  destruct (Ascii.eqb d ".") eqn:Ed.
  - apply Ascii.eqb_eq in Ed. subst d.
    pose proof (all_digits_take_while r) as Hf.
    destruct (Text.take_while Text.is_digit r) as [|c' f]; [discriminate|].
    intros H. inversion H; subst.
    now apply (float_of_decimal_nonneg (String c w) (String c' f)).
  - intros H. exfalso.
    destruct d as [[] [] [] [] [] [] [] []]; try discriminate H; discriminate Ed.
Qed.

Lemma first_decimal_nonneg (s m : string) :
  Text.first_decimal s = Some m -> Qle_bool 0 (Text.float_of_decimal m) = true.
Proof.
  induction s as [|c s IH]; cbn [Text.first_decimal].
  - destruct (Text.decimal_here EmptyString) eqn:E; [|discriminate].
    intros H. inversion H; subst. eapply decimal_here_nonneg, E.
  - destruct (Text.decimal_here (String c s)) eqn:E.
    + intros H. inversion H; subst. eapply decimal_here_nonneg, E.
    + exact IH.
Qed.

Lemma scored_here_nonneg (s m : string) :
  Text.scored_here s = Some m -> Qle_bool 0 (Text.float_of_decimal m) = true.
Proof.
  unfold Text.scored_here.
  destruct (Text.starts_with "Scored" s) as [r|]; [|discriminate].
  destruct (Text.take_while Text.is_space r); [discriminate|].
  apply decimal_here_nonneg.
Qed.

Lemma search_scored_nonneg (s m : string) :
  Text.search_scored s = Some m -> Qle_bool 0 (Text.float_of_decimal m) = true.
Proof.
  induction s as [|c s IH]; cbn [Text.search_scored].
  - destruct (Text.scored_here EmptyString) eqn:E; [|discriminate].
    intros H. inversion H; subst. eapply scored_here_nonneg, E.
  - destruct (Text.scored_here (String c s)) eqn:E.
    + intros H. inversion H; subst. eapply scored_here_nonneg, E.
    + exact IH.
Qed.

End TextFacts.

(** ** The values of a record *)

Section RecordFacts.

Context {W : Type} (D : driver W).


Ltac field_cases H :=
  apply try_except_Ok_inv in H; destruct H as [H|(? & ? & _ & _ & H)];
  [|inversion H; reflexivity].

Ltac step_bind H :=
  apply bind_Ok_inv in H; destruct H as (? & ? & _ & H).

Lemma kind_field_hotel_name card : post (field_hotel_name D card) (fun v => is_text v = true).
Proof. intros s v s' H. field_cases H. step_bind H. inversion H. reflexivity. Qed.

Lemma kind_field_star_rating card :
  post (field_star_rating D card) (fun v => is_optional_int v = true).
Proof.
  intros s v s' H. field_cases H. apply bind_Ok_inv in H.
  destruct H as ([[|c t]|] & ? & _ & H); try (inversion H; reflexivity).
  step_bind H. step_bind H. inversion H. reflexivity.
Qed.

Lemma kind_field_rating_score card :
  post (field_rating_score D card) (fun v => is_optional_score v = true).
Proof.
  intros s v s' H. field_cases H. apply bind_Ok_inv in H.
  destruct H as (t & ? & _ & H).
  destruct (Text.first_decimal t) as [m|] eqn:E; inversion H; [|reflexivity].
  simpl. eapply first_decimal_nonneg, E.
Qed.

Lemma kind_field_location_score card :
  post (field_location_score D card) (fun v => is_optional_score v = true).
Proof.
  intros s v s' H. field_cases H. step_bind H. apply bind_Ok_inv in H.
  destruct H as (t & ? & _ & H).
  destruct (Text.search_scored t) as [m|] eqn:E; inversion H; [|reflexivity].
  simpl. eapply search_scored_nonneg, E.
Qed.

Lemma kind_field_review_amount card :
  post (field_review_amount D card) (fun v => is_optional_count v = true).
Proof.
  intros s v s' H. field_cases H. apply bind_Ok_inv in H.
  destruct H as (t & ? & _ & H). apply bind_Ok_inv in H.
  destruct H as (n & ? & E & H). inversion H. simpl. apply Z.leb_le.
  pose proof (all_digits_filter t) as Hd. unfold Text.remove_non_digits in E.
  destruct (Text.filter Text.is_digit t) as [|c r] eqn:Ed; [discriminate E|].
  rewrite py_int_digits in E by (assumption || discriminate).
  unfold Text.int_of_digits in E.
  destruct (Z.of_nat (String.length (String c r)) <=? Text.MAX_STR_DIGITS);
    [|discriminate E].
  inversion E. apply digits_value_from_nonneg; [assumption|lia].
Qed.

Lemma kind_field_bed_info card : post (field_bed_info D card) (fun v => is_text v = true).
Proof. intros s v s' H. field_cases H. step_bind H. inversion H. reflexivity. Qed.

Lemma kind_field_price card : post (field_price D card) (fun v => is_text v = true).
Proof. intros s v s' H. field_cases H. step_bind H. inversion H. reflexivity. Qed.

Lemma kind_field_breakfast_included card :
  post (field_breakfast_included D card) (fun v => is_flag v = true).
Proof. intros s v s' H. field_cases H. step_bind H. inversion H. reflexivity. Qed.

Lemma kind_field_free_cancellation card :
  post (field_free_cancellation D card) (fun v => is_flag v = true).
Proof. intros s v s' H. field_cases H. step_bind H. inversion H. reflexivity. Qed.

Lemma kind_field_no_prepayment_needed card :
  post (field_no_prepayment_needed D card) (fun v => is_flag v = true).
Proof. intros s v s' H. field_cases H. step_bind H. inversion H. reflexivity. Qed.

Lemma kind_field_centrally_located card :
  post (field_centrally_located D card) (fun v => is_flag v = true).
Proof. intros s v s' H. field_cases H. step_bind H. inversion H. reflexivity. Qed.

Lemma kind_field_sustainability_cert card :
  post (field_sustainability_cert D card) (fun v => is_flag v = true).
Proof. intros s v s' H. field_cases H. step_bind H. inversion H. reflexivity. Qed.

Lemma kind_field_distance_from_downtown card :
  post (field_distance_from_downtown D card) (fun v => is_text v = true).
Proof. intros s v s' H. field_cases H. step_bind H. inversion H. reflexivity. Qed.

Ltac kind_step H L :=
  let E := fresh "E" in
  apply bind_Ok_inv in H; destruct H as (? & ? & E & H); apply L in E.

Lemma extract_card_kinds card s d s' :
  extract_card D card s = (Ok d, s') -> well_kinded field_kinds d = true.
Proof.
  intros H. unfold extract_card in H.
  kind_step H kind_field_hotel_name.
  kind_step H kind_field_star_rating.
  kind_step H kind_field_rating_score.
  kind_step H kind_field_location_score.
  kind_step H kind_field_review_amount.
  kind_step H kind_field_bed_info.
  kind_step H kind_field_price.
  kind_step H kind_field_breakfast_included.
  kind_step H kind_field_free_cancellation.
  kind_step H kind_field_no_prepayment_needed.
  kind_step H kind_field_centrally_located.
  kind_step H kind_field_sustainability_cert.
  kind_step H kind_field_distance_from_downtown.
  unfold ret in H. inversion H; subst. unfold field_kinds. cbn [well_kinded].
  repeat match goal with E : _ = true |- _ => rewrite E; clear E end.
  reflexivity.
Qed.

Lemma extracted_in_order_kinds hotel_cards i s l s' :
  extracted_in_order D hotel_cards i s l s' ->
  Forall (fun d => well_kinded field_kinds d = true) l.
Proof.
  induction 1 as [|i s d s1 l s2 E _ IH]; constructor; [|assumption].
  eapply extract_card_kinds, E.
Qed.

Lemma extract_hotel_data_kinds s l s' :
  extract_hotel_data D s = (Ok l, s') ->
  Forall (fun d => well_kinded field_kinds d = true) l.
Proof.
  intros H. pose proof H as H0. unfold extract_hotel_data in H.
  apply bind_Ok_inv in H. destruct H as (n & s1 & Hn & _).
  destruct (extract_hotel_data_ok D s n s1 Hn) as (l0 & s0 & E & _ & Hord & _).
  rewrite E in H0. inversion H0; subst. eapply extracted_in_order_kinds, Hord.
Qed.

Lemma well_kinded_keys kinds :
  forall d, well_kinded kinds d = true -> keys d = map fst kinds.
Proof.
  induction kinds as [|[k kind] kinds IH]; intros [|[k' v] d] H; simpl in H;
    try discriminate; [reflexivity|].
  apply andb_true_iff in H. destruct H as [H Hd].
  apply andb_true_iff in H. destruct H as [Hk _].
  apply String.eqb_eq in Hk. subst. unfold keys in *. simpl. now rewrite (IH d Hd).
Qed.

Lemma well_kinded_app kinds1 kinds2 :
  forall d1 d2,
    well_kinded kinds1 d1 = true -> well_kinded kinds2 d2 = true ->
    well_kinded (kinds1 ++ kinds2) (d1 ++ d2) = true.
Proof.
  induction kinds1 as [|[k kind] kinds1 IH]; intros [|[k' v] d1] d2 H1 H2;
    simpl in H1; try discriminate; [assumption|]. simpl.
  apply andb_true_iff in H1. destruct H1 as [-> Hd]. simpl. now apply IH.
Qed.

Lemma dict_set_new k v d : ~ In k (keys d) -> dict_set k v d = d ++ [(k, v)].
Proof.
  unfold keys. induction d as [|[k' v'] d IH]; intros Hin; simpl; [reflexivity|].
  destruct (String.eqb k k') eqn:E.
  - apply String.eqb_eq in E. subst. exfalso. apply Hin. now left.
  - rewrite IH; [reflexivity|]. intros H. apply Hin. now right.
Qed.

Lemma stamped_kinds d a b :
  well_kinded field_kinds d = true ->
  well_kinded (field_kinds ++ [("checkin", is_text); ("checkout", is_text)])
    (dict_set "checkout" (PStr b) (dict_set "checkin" (PStr a) d)) = true.
Proof.
  intros H. pose proof (well_kinded_keys _ _ H) as Hk.
  rewrite (dict_set_new "checkin").
  - rewrite (dict_set_new "checkout").
    + change (field_kinds ++ [("checkin", is_text); ("checkout", is_text)])
        with ((field_kinds ++ [("checkin", is_text)]) ++ [("checkout", is_text)]).
      repeat apply well_kinded_app; try assumption; reflexivity.
    + unfold keys in *. rewrite map_app, Hk. simpl.
      intros Hin. repeat (destruct Hin as [Hin|Hin]; [discriminate Hin|]).
      destruct Hin.
  - rewrite Hk. simpl.
    intros Hin. repeat (destruct Hin as [Hin|Hin]; [discriminate Hin|]).
    destruct Hin.
Qed.

(** X12. The fields of a record have fixed kinds: hotel name, bed
    information, price and distance are texts; the five flags are
    booleans; the star rating is an integer or [None]; the review
    amount is a non-negative integer or [None]; the two scores are
    non-negative numbers or [None]. The same holds, with the two dates
    as texts, for every record that the wrapper hands to the sink. *)
Theorem record_kinds (fuel : nat) (checkin checkout : Z) :
  (forall card s d s',
     extract_card D card s = (Ok d, s') -> well_kinded field_kinds d = true)
  /\ (forall s hotels s',
        scrape_date_combination_sync_retry D fuel checkin checkout s = (Ok hotels, s') ->
        Forall (fun h =>
                  well_kinded
                    (field_kinds ++ [("checkin", is_text); ("checkout", is_text)]) h
                  = true) hotels).
Proof.
  split; [apply extract_card_kinds|].
  intros s hotels s' H. apply retry_Ok_inv in H. destruct H as (_ & s0 & H).
  apply attempt_Ok_inv in H. destruct H as (l & sa & sb & E & ->).
  apply extract_hotel_data_kinds in E.
  induction E as [|d l Hd _ IH]; simpl; constructor; [|assumption].
  now apply stamped_kinds.
Qed.

End RecordFacts.


Lemma record_kinds_witness :
  exists d s',
    extract_card Site.site (Nth property_cards 0) (mkState (Site.steady 1) [])
    = (Ok d, s')
    /\ well_kinded field_kinds d = true.
Proof.
  evaluate (extract_card Site.site (Nth property_cards 0)
              (mkState (Site.steady 1) [])) E.
  match type of E with _ = (Ok ?d, ?s1) =>
    exists d, s1; split; [exact E|];
    exact (proj1 (record_kinds Site.site 1 738886 738887) _ _ d s1 E)
  end.
Defined.

Example review_amount_no_digit :
  fst (field_review_amount Site.site (Nth property_cards 0)
         (mkState (Site.mkWorld
                     [Site.mkCard None None None None (Some "No reviews yet") None
                        None None None None None None None]
                     1 0 true true false []) []))
  = Ok PNone.
Proof. reflexivity. Qed.

(** ** Rows and headers *)

Section AccountingFacts.

Lemma length_DataFrame_rows data : length (DataFrame_rows data) = length data.
Proof. unfold DataFrame_rows. cbv zeta. apply length_map. Qed.

Lemma data_rows_app l1 l2 : data_rows (l1 ++ l2) = (data_rows l1 + data_rows l2)%nat.
Proof. unfold data_rows. now rewrite List.filter_app, length_app. Qed.

Lemma data_rows_DataFrame_rows data : data_rows (DataFrame_rows data) = length data.
Proof.
  unfold DataFrame_rows, data_rows. cbv zeta.
  generalize (map (fun c => (c, column_dtype data c)) (DataFrame_columns data)) as cols.
  intros cols. induction data as [|d data IH]; simpl; [reflexivity|]. now rewrite IH.
Qed.

Lemma data_rows_concat_rows batches :
  data_rows (concat (map DataFrame_rows batches)) = length (concat batches).
Proof.
  induction batches as [|data batches IH]; simpl; [reflexivity|].
  now rewrite data_rows_app, data_rows_DataFrame_rows, IH, length_app.
Qed.

Lemma append_all_other batches (csv_filename other : string) :
  other <> csv_filename ->
  forall fs : filesystem, append_all batches csv_filename fs !! other = fs !! other.
Proof.
  intros Hne. unfold append_all.
  induction batches as [|data batches IH]; intros fs; simpl; [reflexivity|].
  rewrite IH. now apply write_to_csv_other.
Qed.

(** X13. Appending batches to a destination adds one row per record and
    touches nothing else: the other files stay as they are; lines
    already in the destination stay in front, with as many headers as
    before; and a destination that was missing ends with one header and
    as many rows as there are records in the batches. *)
Theorem append_all_accounts (batches : list (list pydict)) (csv_filename : string)
    (fs : filesystem) :
  (forall other : string, other <> csv_filename ->
     append_all batches csv_filename fs !! other = fs !! other)
  /\ (forall lines, fs !! csv_filename = Some lines ->
        exists added,
          append_all batches csv_filename fs !! csv_filename = Some (lines ++ added)
          /\ headers (lines ++ added) = headers lines
          /\ data_rows (lines ++ added)
             = (data_rows lines + length (concat batches))%nat)
  /\ (fs !! csv_filename = None -> batches <> [] ->
        exists lines,
          append_all batches csv_filename fs !! csv_filename = Some lines
          /\ headers lines = 1%nat
          /\ data_rows lines = length (concat batches)).
Proof.
  split; [|split].
  - intros other Hne. now apply append_all_other.
  - intros lines H. exists (concat (map DataFrame_rows batches)).
    split; [now apply append_all_existing|].
    rewrite headers_app, headers_concat_rows, data_rows_app, data_rows_concat_rows.
    split; [lia|reflexivity].
  - intros H Hne. destruct batches as [|first rest]; [congruence|].
    eexists. split.
    + unfold append_all. simpl.
      exact (append_all_existing csv_filename rest _ _
               (write_to_csv_fresh first csv_filename fs H)).
    + change (Header (DataFrame_columns first) :: DataFrame_rows first)
        with ([Header (DataFrame_columns first)] ++ DataFrame_rows first).
      rewrite <- app_assoc, headers_app, data_rows_app.
      change (DataFrame_rows first ++ concat (map DataFrame_rows rest))
        with (concat (map DataFrame_rows (first :: rest))).
      rewrite headers_concat_rows, data_rows_concat_rows. split; reflexivity.
Qed.

Lemma append_all_accounts_witness :
  let one := [[("hotel_name", PStr "A")]; [("hotel_name", PStr "B")]] in
  let two := [[("hotel_name", PStr "C")]] in
  (exists lines,
     append_all [one; two] "out.csv" ∅ !! "out.csv" = Some lines
     /\ headers lines = 1%nat
     /\ data_rows lines = length (concat [one; two]))
  /\ (exists added,
        append_all [two] "out.csv" (<["out.csv" := [Header ["hotel_name"]]]> ∅)
          !! "out.csv" = Some ([Header ["hotel_name"]] ++ added)
        /\ headers ([Header ["hotel_name"]] ++ added) = headers [Header ["hotel_name"]]
        /\ data_rows ([Header ["hotel_name"]] ++ added)
           = (data_rows [Header ["hotel_name"]] + length (concat [two]))%nat).
Proof.
  intros one two. split.
  - apply (proj2 (proj2 (append_all_accounts [one; two] "out.csv" ∅)));
      [reflexivity|discriminate].
  - apply (proj1 (proj2 (append_all_accounts [two] "out.csv"
                           (<["out.csv" := [Header ["hotel_name"]]]> ∅)))).
    reflexivity.
Defined.

End AccountingFacts.

(** ** A whole run *)

Section RunFacts.

Context {W : Type} (D : driver W) (fuel : nat) (site : nat -> W).
Context (dates : list task) (csv_filename : string) (fs0 : filesystem).

#[local] Abbreviation args_list :=
  (map (fun '(checkin, checkout) => (checkin, checkout, csv_filename)) dates).

Lemma task_batch_100 i hotels :
  task_batch D fuel site dates i = Ok hotels -> length hotels = 100%nat.
Proof.
  unfold task_batch. destruct (dates !! i) as [[checkin checkout]|]; [|discriminate].
  destruct (scrape_date_combination_sync_retry D fuel checkin checkout
              (mkState (site i) [])) as [r s'] eqn:E.
  simpl. intros ->. pose proof E as E0. apply retry_Ok_inv in E.
  destruct E as (Hge & s0 & E). apply attempt_Ok_inv in E.
  destruct E as (l & sa & sb & E & ->). rewrite length_map in *.
  apply extract_hotel_data_length in E. lia.
Qed.

Lemma pool_run_accounted cs order :
  forall ps ps',
    pool_accounted csv_filename fs0 ps ->
    pool_run D fuel site args_list cs order ps = Some ps' ->
    pool_accounted csv_filename fs0 ps'.
Proof.
  induction order as [|i order IH]; intros ps ps' Ha H; cbn [pool_run] in H.
  - now inversion H; subst.
  - destruct (args_list !! i) as [args|] eqn:Ea; [|eauto].
    destruct (chunk_failed cs ps i || task_done ps i) eqn:Eskip; [eauto|].
    apply orb_false_iff in Eskip. destruct Eskip as [_ Edone].
    apply args_list_lookup in Ea. destruct Ea as (checkin & checkout & Hd & ->).
    destruct (worker_task D fuel site dates csv_filename i checkin checkout
                (p_files ps) Hd) as (tr & Hw).
    rewrite Hw in H. clear Hw.
    destruct (task_batch D fuel site dates i) as [hotels|e|] eqn:Eb;
      [| |discriminate]; (eapply IH; [|exact H]); clear H IH;
      destruct Ha as (Hother & ran & Hnd & Hran & Hfile).
    + pose proof (task_batch_100 i hotels Eb) as Hlen.
      assert (Hi : ~ In i ran).
      { intros Hin. apply Hran in Hin. unfold task_done in Edone.
        destruct Hin as [v Hv]. rewrite Hv in Edone. discriminate. }
      split; simpl.
      * intros other Hne. rewrite write_to_csv_other by assumption. now apply Hother.
      * exists (i :: ran). split; [|split].
        -- apply NoDup_cons. split; [now rewrite list_elem_of_In|assumption].
        -- intros j. simpl. destruct (decide (i = j)) as [<-|Hne].
           ++ rewrite lookup_insert_eq. split; eauto.
           ++ rewrite lookup_insert_ne by assumption. rewrite <- Hran.
              split; [intros [?|?]; [congruence|assumption]|auto].
        -- destruct ran as [|j ran].
           ++ eexists. split; [now apply write_to_csv_fresh|].
              change (Header (DataFrame_columns hotels) :: DataFrame_rows hotels)
                with ([Header (DataFrame_columns hotels)] ++ DataFrame_rows hotels).
              rewrite headers_app, headers_rows, data_rows_app,
                data_rows_DataFrame_rows, Hlen. split; reflexivity.
           ++ destruct Hfile as (lines & Hl & Hh & Hr).
              eexists. split; [exact (write_to_csv_existing _ _ _ _ Hl)|].
              rewrite headers_app, headers_rows, data_rows_app,
                data_rows_DataFrame_rows, Hlen, Hh, Hr. simpl length. split; lia.
    + split; simpl; [assumption|]. exists ran. auto.
Qed.

Lemma pool_accounted_start :
  fs0 !! csv_filename = None ->
  pool_accounted csv_filename fs0 (mkPool fs0 [] ∅ [] None).
Proof.
  intros H. split; [reflexivity|]. exists []. simpl.
  split; [constructor|]. split; [|assumption].
  intros i. rewrite lookup_empty. split; [intros []|intros [v Hv]; discriminate].
Qed.

Lemma fold_left_add_100 (l : list nat) :
  forall acc, fold_left Z.add (map (fun _ : nat => 100) l) acc
              = acc + 100 * Z.of_nat (length l).
Proof.
  induction l as [|x l IH]; intros acc; simpl length; simpl; [lia|].
  rewrite IH. lia.
Qed.

(** What a finished [pool.map] leaves: a count of 100 for each task,
    and a file that accounts for all of them. *)
Lemma pool_map_accounted order counts fs' tr :
  fs0 !! csv_filename = None ->
  pool_map D fuel site args_list order fs0 = (Ok counts, fs', tr) ->
  counts = map (fun _ => 100) (seq 0 (length dates))
  /\ (forall other : string, other <> csv_filename -> fs' !! other = fs0 !! other)
  /\ match dates with
     | [] => fs' !! csv_filename = None
     | _ =>
         exists lines,
           fs' !! csv_filename = Some lines
           /\ headers lines = 1%nat
           /\ data_rows lines = (100 * length dates)%nat
     end.
Proof.
  intros Hfresh. unfold pool_map. rewrite length_map.
  set (cs := chunksize (length dates) 24).
  destruct (pool_run D fuel site args_list cs order (mkPool fs0 [] ∅ [] None))
    as [ps'|] eqn:Hrun; [|discriminate].
  destruct (forallb _ _) eqn:Hall; [|discriminate].
  destruct (p_error ps') eqn:He; [discriminate|]. intros H. inversion H; subst.
  clear H.
  destruct (pool_run_sound D fuel site dates csv_filename cs order _ _
              (pool_sound_start D fuel site dates fs0) Hrun) as [Hf Hc].
  specialize (Hf He).
  destruct (pool_run_accounted cs order _ _ (pool_accounted_start Hfresh) Hrun)
    as (Hother & ran & Hnd & Hran & Hfile).
  assert (Hdone : forall i, (i < length dates)%nat -> is_Some (p_counts ps' !! i)).
  { intros i Hi. rewrite forallb_forall in Hall. specialize (Hall i).
    unfold chunk_failed, task_done in Hall. rewrite Hf in Hall. simpl in Hall.
    destruct (p_counts ps' !! i) as [v|]; [eauto|].
    assert (false = true); [|discriminate]. apply Hall, in_seq. lia. }
  assert (Hlen : length ran = length dates).
  { transitivity (length (seq 0 (length dates))); [|apply length_seq].
    apply Permutation_length.
    apply NoDup_Permutation; [assumption|apply NoDup_seq|].
    intros i. rewrite !list_elem_of_In, Hran, in_seq. split.
    - intros [v Hv]. destruct (Hc i v Hv) as [Hi _]. lia.
    - intros Hi. apply Hdone. lia. }
  split; [|split; [exact Hother|]].
  - apply map_ext_in. intros i Hi. apply in_seq in Hi.
    destruct (Hdone i) as [v Hv]; [lia|]. rewrite Hv. simpl.
    destruct (Hc i v Hv) as (_ & hotels & Eb & ->).
    apply task_batch_100 in Eb. lia.
  - destruct ran as [|j ran]; destruct dates as [|t ts]; try discriminate Hlen.
    + assumption.
    + rewrite <- Hlen. assumption.
Qed.

End RunFacts.

Section RunTheorems.

Context {W : Type} (D : driver W).

Lemma run_Ok_inv fuel ttt los start_date end_date today now site order
    (fs : filesystem) v fs' tr :
  scrape_all_dates_sync D fuel ttt los start_date end_date today now site order fs
  = (Ok v, fs', tr) ->
  exists dates,
    scrape_all_dates_sync_dates ttt los start_date end_date today = Ok dates
    /\ v = PStr (run_csv_filename now)
    /\ (exists tr0, tr = tr0 ++ [EPrintTotal (100 * Z.of_nat (length dates))])
    /\ (forall other : string, other <> run_csv_filename now ->
          fs' !! other = fs !! other)
    /\ match dates with
       | [] => fs' !! run_csv_filename now = None
       | _ =>
           exists lines,
             fs' !! run_csv_filename now = Some lines
             /\ headers lines = 1%nat
             /\ data_rows lines = (100 * length dates)%nat
       end.
Proof.
  unfold scrape_all_dates_sync.
  destruct (scrape_all_dates_sync_dates ttt los start_date end_date today)
    as [dates|e|]; [|discriminate..].
  cbv zeta.
  set (fs0 := match fs !! run_csv_filename now with
              | Some _ => delete (run_csv_filename now) fs
              | None => fs
              end).
  assert (Hfresh : fs0 !! run_csv_filename now = None).
  { unfold fs0. destruct (fs !! run_csv_filename now) eqn:E; [|assumption].
    apply lookup_delete_eq. }
  assert (Hkeep : forall other : string, other <> run_csv_filename now ->
                    fs0 !! other = fs !! other).
  { intros other Hne. unfold fs0.
    destruct (fs !! run_csv_filename now); [|reflexivity].
    now apply lookup_delete_ne. }
  destruct (pool_map D fuel site _ order fs0) as [[[counts|e|] fs1] tr1] eqn:Hmap;
    intros H; inversion H; subst; clear H.
  destruct (pool_map_accounted D fuel site dates (run_csv_filename now) fs0
              order counts fs' tr1 Hfresh Hmap) as (-> & Hother & Hfile).
  exists dates. split; [reflexivity|]. split; [reflexivity|].
  split; [|split; [|exact Hfile]].
  - exists tr1. rewrite fold_left_add_100, length_seq. reflexivity.
  - intros other Hne. rewrite Hother by assumption. now apply Hkeep.
Qed.

(** X14. A run that comes back has accounted for every task: it prints
    a total of 100 records per task; its output file, whatever was
    there before, holds one header and 100 rows per task (and is not
    there at all when there is no task); and no other file is
    touched. *)
Theorem run_accounts_for_every_task (fuel : nat) (ttt los : Z)
    (start_date end_date : option Z) (today now : Z) (site : nat -> W)
    (order : list nat) (fs : filesystem) (dates : list task)
    (v : pyval) (fs' : filesystem) (tr : list event) :
  scrape_all_dates_sync_dates ttt los start_date end_date today = Ok dates ->
  scrape_all_dates_sync D fuel ttt los start_date end_date today now site order fs
  = (Ok v, fs', tr) ->
  (exists tr0, tr = tr0 ++ [EPrintTotal (100 * Z.of_nat (length dates))])
  /\ (forall other : string, other <> run_csv_filename now ->
        fs' !! other = fs !! other)
  /\ match dates with
     | [] => fs' !! run_csv_filename now = None
     | _ =>
         exists lines,
           fs' !! run_csv_filename now = Some lines
           /\ headers lines = 1%nat
           /\ data_rows lines = (100 * length dates)%nat
     end.
Proof.
  intros Hdates H. apply run_Ok_inv in H.
  destruct H as (dates' & Hd & _ & H). rewrite Hdates in Hd. inversion Hd; subst.
  exact H.
Qed.

Lemma get_dates_default_Ok_inv today los dates :
  Date.valid today -> 1 <= los ->
  get_dates today None None los = Ok dates ->
  dates = generateTasks_spec today 31 los.
Proof.
  intros [Ht Hmax] Hlos. unfold Date.MINORDINAL, Date.MAXORDINAL in *.
  unfold get_dates.
  destruct (add_days_outcome today 30) as [[-> [_ H30]]| ->]; [|discriminate].
  cbn [obind]. unfold Date.MAXORDINAL in H30.
  destruct (Z_le_gt_dec (today + 30 + los) Date.MAXORDINAL) as [Hfit|Hover];
    unfold Date.MAXORDINAL in *.
  - rewrite get_dates_loop_ok with (days := 31%nat);
      try assumption; try (unfold Date.MAXORDINAL; lia).
    intros H. inversion H. reflexivity.
  - rewrite get_dates_loop_overflow with (days := 30%nat);
      try assumption; try (unfold Date.MAXORDINAL; lia). discriminate.
Qed.

(** X15. With today a date, a [main] that comes back has read back
    15500 records: 100 for each of the 5 stays of each of the 31 days
    of the default sweep. *)
Theorem main_reads_back_every_record (fuel : nat) (today now : Z) (site : nat -> W)
    (order : list nat) (fs : filesystem) (n : nat) (fs' : filesystem)
    (tr : list event) :
  Date.valid today ->
  main D fuel today now site order fs = (Ok n, fs', tr) ->
  n = (100 * (31 * 5))%nat.
Proof.
  intros Hvalid. unfold main. cbv zeta.
  destruct (scrape_all_dates_sync D fuel 30 5 None None today now site order fs)
    as [[[v|e|] fs1] tr1] eqn:E; [|discriminate..].
  apply run_Ok_inv in E. destruct E as (dates & Hd & -> & _ & _ & Hfile).
  unfold scrape_all_dates_sync_dates in Hd.
  apply get_dates_default_Ok_inv in Hd; [|assumption|lia]. subst dates.
  assert (Hlen : length (generateTasks_spec today 31 5) = (31 * 5)%nat)
    by (rewrite generateTasks_spec_length; reflexivity).
  destruct (generateTasks_spec today 31 5) as [|t ts] eqn:Eg;
    [discriminate Hlen|].
  destruct Hfile as (lines & -> & _ & Hrows). rewrite Hlen in Hrows.
  intros H. inversion H; subst. exact Hrows.
Qed.

End RunTheorems.

Lemma run_accounts_for_every_task_witness :
  exists v fs' tr,
    scrape_all_dates_sync Site.site 1 30 2 (Some 738886) (Some 738886) 738886 738886
      (fun _ => Site.steady 100) [1; 0]%nat ∅ = (Ok v, fs', tr)
    /\ (exists tr0, tr = tr0 ++ [EPrintTotal (100 * Z.of_nat 2)])
    /\ exists lines,
         fs' !! run_csv_filename 738886 = Some lines
         /\ headers lines = 1%nat
         /\ data_rows lines = (100 * 2)%nat.
Proof.
  assert (Hc : fst (fst (scrape_all_dates_sync Site.site 1 30 2 (Some 738886)
                           (Some 738886) 738886 738886 (fun _ => Site.steady 100)
                           [1; 0]%nat ∅))
               = Ok (PStr "booking_com_20240101.csv"))
    by (vm_compute; reflexivity).
  destruct (scrape_all_dates_sync Site.site 1 30 2 (Some 738886) (Some 738886)
              738886 738886 (fun _ => Site.steady 100) [1; 0]%nat ∅)
    as [[r fs'] tr] eqn:E.
  cbn [fst] in Hc. subst r. eexists _, fs', tr. split; [reflexivity|].
  destruct (run_accounts_for_every_task Site.site 1 30 2 (Some 738886) (Some 738886)
              738886 738886 (fun _ => Site.steady 100) [1; 0]%nat ∅
              [(738886, 738887); (738886, 738888)] _ fs' tr eq_refl E)
    as (Htot & _ & Hfile).
  split; [exact Htot|exact Hfile].
Defined.

Lemma main_reads_back_every_record_witness :
  exists n fs' tr,
    main Site.site 1 738886 738886 (fun _ => Site.steady 100) (seq 0 155) ∅
    = (Ok n, fs', tr)
    /\ n = (100 * (31 * 5))%nat.
Proof.
  assert (Hc : fst (fst (main Site.site 1 738886 738886 (fun _ => Site.steady 100)
                           (seq 0 155) ∅))
               = Ok (100 * (31 * 5))%nat)
    by (vm_compute; reflexivity).
  destruct (main Site.site 1 738886 738886 (fun _ => Site.steady 100) (seq 0 155) ∅)
    as [[r fs'] tr] eqn:E.
  cbn [fst] in Hc. subst r. eexists _, fs', tr. split; [reflexivity|].
  apply (main_reads_back_every_record Site.site 1 738886 738886
           (fun _ => Site.steady 100) (seq 0 155) ∅ _ fs' tr); [|exact E].
  unfold Date.valid, Date.MINORDINAL, Date.MAXORDINAL. lia.
Defined.
